(** * PinCLI_SPI: the serial command line of [PinCLI_SPI.ino]

    A shallow embedding of the sketch's line editor ([read_input]), its
    tokenizer ([get_token], a wrapper around the C library's [strtok]),
    the dispatcher ([execute]) and the nine command handlers, followed by
    the properties of the written specification that were checked on it.

    Conventions.
    - A [char]/[byte] is a [Z] holding its bit pattern, 0..255.
    - An [int] is 16 bits wide on the AVR; [wrap16] writes the wrap-around.
    - The globals of the sketch ([error_flag], [line_buf], [args], [cp])
      and the hidden static pointer of [strtok] are the fields of [state].
      Pointers into [line_buf] are offsets ([nat]); the null pointer is
      [None].
    - Everything the sketch does to the outside world (serial output, pin
      I/O, SPI, delay) is appended to [trace], one [event] per call, in
      program order.  What the outside world answers is read from [env]. *)

From Stdlib Require Import ZArith Lia Ascii String.
From stdpp Require Import base list strings.

(** ** Constants of the sketch *)

Definition LINE_BUF_SIZE : nat := 64.
Definition ARG_BUF_SIZE : nat := 16.

Definition CR_CHAR : Z := 13.
Definition LF_CHAR : Z := 10.
Definition BKSP_CHAR : Z := 8.
Definition BEL_CHAR : Z := 7.    (* '\a' *)
Definition SP_CHAR : Z := 32.    (* ' ' *)

Definition CLI_PROMPT : string := "> ".
Definition PINCLI_VER : string := "x0.36".

(** Values of [Arduino.h] and [SPI.h] used by the sketch. *)
Definition LOW : Z := 0.
Definition HIGH : Z := 1.

Inductive pin_mode := INPUT | INPUT_PULLUP | OUTPUT.
Inductive bit_order := LSBFIRST | MSBFIRST.
Inductive spi_mode := SPI_MODE0 | SPI_MODE1 | SPI_MODE2 | SPI_MODE3.

Definition SPI_SPEED : Z := 1000000.
Definition SPI_ORDER : bit_order := MSBFIRST.
Definition SPI_MODE : spi_mode := SPI_MODE0.

(** ** The outside world *)

Inductive event :=
| Serial_write (c : Z)
| Serial_print (s : string)
| Serial_println (s : string)
| Serial_println_int (n : Z)
| Ev_pinMode (pin : Z) (m : pin_mode)
| Ev_digitalRead (pin : Z)
| Ev_digitalWrite (pin : Z) (v : Z)
| Ev_delay (ms : Z)
| SPI_begin
| SPI_beginTransaction (speed : Z) (order : bit_order) (mode : spi_mode)
| SPI_transfer (v : Z)
| SPI_transfer16 (v : Z)
| SPI_endTransaction.

(** What the collaborators answer.  [mem_str a] is the byte string that
    lies at the raw data address [a], outside the sketch's two buffers
    (needed for [cmd_pr] only, which hands a character to [atoi] where a
    pointer is expected). *)
Record env := mkEnv {
  ARDUINO_AVR_MEGA2560 : bool;
  digitalRead : Z -> Z;
  SPI_transfer_rx : Z -> Z;
  SPI_transfer16_rx : Z -> Z;
  mem_str : Z -> list Z
}.

Definition SPI_SSPIN (e : env) : Z :=
  if ARDUINO_AVR_MEGA2560 e then 53%Z else 10%Z.

(** ** Globals *)

Record state := mkState {
  error_flag : bool;
  line_buf : list Z;          (* char line_buf[LINE_BUF_SIZE] *)
  args : list Z;              (* char args[ARG_BUF_SIZE] *)
  cp : nat;                   (* cp - line_buf *)
  strtok_last : option nat;   (* strtok's saved pointer, into line_buf *)
  trace : list event
}.

Definition set_error_flag (b : bool) (st : state) : state :=
  mkState b (line_buf st) (args st) (cp st) (strtok_last st) (trace st).
Definition set_line_buf (l : list Z) (st : state) : state :=
  mkState (error_flag st) l (args st) (cp st) (strtok_last st) (trace st).
Definition set_args (a : list Z) (st : state) : state :=
  mkState (error_flag st) (line_buf st) a (cp st) (strtok_last st) (trace st).
Definition set_cp (n : nat) (st : state) : state :=
  mkState (error_flag st) (line_buf st) (args st) n (strtok_last st) (trace st).
Definition set_strtok_last (p : option nat) (st : state) : state :=
  mkState (error_flag st) (line_buf st) (args st) (cp st) p (trace st).
Definition emit (evs : list event) (st : state) : state :=
  mkState (error_flag st) (line_buf st) (args st) (cp st) (strtok_last st)
          (trace st ++ evs).

(** The state after static initialisation (all globals zero). *)
Definition boot : state :=
  mkState false (replicate LINE_BUF_SIZE 0%Z) (replicate ARG_BUF_SIZE 0%Z)
          0 None [].

(** ** C library functions used by the sketch *)

(** [buf[i]]; a read past the end of the array gives 0 in the model. *)
Definition byte_at (buf : list Z) (i : nat) : Z := default 0%Z (buf !! i).

(** The C string that starts at the head of [s]: the bytes before the
    first NUL. *)
Fixpoint cstr (s : list Z) : list Z :=
  match s with
  | [] => []
  | c :: s' => if (c =? 0)%Z then [] else c :: cstr s'
  end.

Definition bytes_of (s : string) : list Z :=
  map (fun a => Z.of_nat (nat_of_ascii a)) (list_ascii_of_string s).

Definition tolower (c : Z) : Z :=
  if ((65 <=? c) && (c <=? 90))%Z then (c + 32)%Z else c.

Definition isspace (c : Z) : bool :=
  ((c =? 32) || ((9 <=? c) && (c <=? 13)))%Z.
Definition isdigit (c : Z) : bool := ((48 <=? c) && (c <=? 57))%Z.

Definition wrap16 (n : Z) : Z := ((n + 32768) mod 65536 - 32768)%Z.
Definition wrap8 (n : Z) : Z := (n mod 256)%Z.

(** The conversions an argument undergoes when it is passed to a
    parameter of type [uint8_t], [uint16_t] or [unsigned long]. *)
Definition to_uint8 (n : Z) : Z := (n mod 256)%Z.
Definition to_uint16 (n : Z) : Z := (n mod 65536)%Z.
Definition to_ulong (n : Z) : Z := (n mod 4294967296)%Z.

Fixpoint skip_space (s : list Z) : list Z :=
  match s with
  | [] => []
  | c :: s' => if isspace c then skip_space s' else s
  end.

Fixpoint atoi_digits (s : list Z) (acc : Z) : Z :=
  match s with
  | [] => acc
  | c :: s' => if isdigit c then atoi_digits s' (acc * 10 + (c - 48))%Z
               else acc
  end.

(** [atoi] on the C string [s]: white space, an optional sign, digits;
    anything else ends the number, so a string without digits gives 0. *)
Definition atoi (s : list Z) : Z :=
  match skip_space s with
  | 45%Z :: s' => wrap16 (- atoi_digits s' 0)
  | 43%Z :: s' => wrap16 (atoi_digits s' 0)
  | s' => wrap16 (atoi_digits s' 0)
  end.

(** [strcmp] on two C strings given by their contents. *)
Fixpoint strcmp (a b : list Z) : Z :=
  match a, b with
  | [], [] => 0
  | [], y :: _ => (0 - y)
  | x :: _, [] => x
  | x :: a', y :: b' => if (x =? y)%Z then strcmp a' b' else (x - y)
  end%Z.

(** [strcpy(dst, src)]: the bytes of [src] and the terminator overwrite
    the head of [dst]. *)
Definition strcpy (dst src : list Z) : list Z :=
  src ++ 0%Z :: drop (S (length src)) dst.

(** [strspn(s, " ")] and [strcspn(s, " ")]. *)
Fixpoint strspn_sp (s : list Z) : nat :=
  match s with
  | c :: s' => if (c =? SP_CHAR)%Z then S (strspn_sp s') else 0
  | [] => 0
  end.

Fixpoint strcspn_sp (s : list Z) : nat :=
  match s with
  | c :: s' => if ((c =? 0) || (c =? SP_CHAR))%Z then 0 else S (strcspn_sp s')
  | [] => 0
  end.

(** [strtok(s, " ")] on [line_buf].  With [s] null the scan resumes at the
    saved pointer.  Leading delimiters are skipped; at the end of the
    string the result is null; otherwise the delimiter that ends the token
    is overwritten with NUL and the scan position is saved behind it. *)
Definition strtok (s : option nat) (st : state) : option nat * state :=
  match (match s with Some p => Some p | None => strtok_last st end) with
  | None => (None, st)
  | Some p =>
    let b := p + strspn_sp (drop p (line_buf st)) in
    if (byte_at (line_buf st) b =? 0)%Z then
      (None, set_strtok_last (Some b) st)
    else
      let e := b + strcspn_sp (drop b (line_buf st)) in
      if (byte_at (line_buf st) e =? 0)%Z then
        (Some b, set_strtok_last (Some e) st)
      else
        (Some b, set_strtok_last (Some (S e))
                   (set_line_buf (<[e := 0%Z]> (line_buf st)) st))
  end.

(** ** The sketch *)

(** *** Tables *)

Definition commands_str : list string :=
  ["delay"; "help"; "pmode"; "pr"; "pw"; "spiend"; "spirw"; "spirw16";
   "spistart"]%string.

Definition pmode_args : list string := ["i"; "ip"; "o"]%string.
Definition spistart_arg1 : list string := ["lsbfirst"; "msbfirst"]%string.
Definition spistart_arg2 : list string :=
  ["mode0"; "mode1"; "mode2"; "mode3"]%string.

Definition num_commands : nat := length commands_str.

(** [tbl[i]] as a C string. *)
Definition str_at (tbl : list string) (i : nat) : list Z :=
  bytes_of (default EmptyString (tbl !! i)).

(** [strcmp(args, s) == 0] *)
Definition args_is (st : state) (s : list Z) : bool :=
  (strcmp (cstr (args st)) s =? 0)%Z.

(** *** Prompt and initialisation *)

Definition memset0 (n : nat) : list Z := replicate n 0%Z.

Definition send_prompt (st : state) : state :=
  emit [Serial_print CLI_PROMPT] st.

Definition PinCLI_init (st : state) : state :=
  let st := set_line_buf (memset0 LINE_BUF_SIZE) st in
  let st := emit [Serial_print "PinCLI v"; Serial_println PINCLI_VER] st in
  send_prompt st.

(** *** Line editor *)

(** One turn of the [while] loop of [read_input] on the byte [c] just read.
    The boolean tells whether the turn left the function with [return 1]. *)
Definition read_input_body (c : Z) (st : state) : bool * state :=
  if (LF_CHAR =? c)%Z then (false, st)
  else if (CR_CHAR =? c)%Z then
    (* [*cp == '\0';] compares and stores nothing *)
    (true, emit [Serial_write CR_CHAR; Serial_write LF_CHAR] st)
  else if (BKSP_CHAR =? c)%Z then
    if 0 <? cp st then
      let st := set_cp (pred (cp st)) st in
      let st := set_line_buf (<[cp st := 0%Z]> (line_buf st)) st in
      (false, emit [Serial_write BKSP_CHAR; Serial_write SP_CHAR;
                    Serial_write BKSP_CHAR] st)
    else (false, st)
  else
    let c := tolower c in
    if cp st <? LINE_BUF_SIZE - 1 then
      let st := set_line_buf (<[cp st := c]> (line_buf st)) st in
      let st := set_cp (S (cp st)) st in
      (false, emit [Serial_write c] st)
    else
      let st := set_cp 0 st in
      let st := set_line_buf (memset0 LINE_BUF_SIZE) st in
      let st := emit [Serial_write BEL_CHAR; Serial_write CR_CHAR;
                      Serial_write LF_CHAR] st in
      let st := send_prompt st in
      let st := set_line_buf (<[cp st := c]> (line_buf st)) st in
      let st := set_cp (S (cp st)) st in
      (false, emit [Serial_write c] st).

(** [read_input] on the bytes [rx] waiting in the serial receiver: the
    result, the bytes left unread and the new state. *)
Fixpoint read_input (rx : list Z) (st : state) : Z * list Z * state :=
  match rx with
  | [] => (0%Z, [], st)
  | c :: rx' =>
    let '(ret, st') := read_input_body c st in
    if ret then (1%Z, rx', st') else read_input rx' st'
  end.

(** *** Tokenizer *)

(** The function is [void] in the sketch; the model also tells which of its
    three exits was taken. *)
Inductive token_exit := EndOfLine | Found | TooLong.

Definition get_token (instr : option nat) (st : state) : token_exit * state :=
  let st := set_args (<[0 := 0%Z]> (args st)) st in
  let '(token, st) := strtok instr st in
  match token with
  | None => (EndOfLine, st)
  | Some t =>
    let tok := cstr (drop t (line_buf st)) in
    if length tok <? ARG_BUF_SIZE then
      (Found, set_args (strcpy (args st) tok) st)
    else
      (TooLong,
       set_error_flag true (emit [Serial_println "Token too long."] st))
  end.

Definition parse_cmd (st : state) : state :=
  snd (get_token (Some 0) st).

(** *** Help texts *)

Definition dq : string := String (ascii_of_nat 34) EmptyString.

Definition help_help (st : state) : state :=
  let st := emit [Serial_println "The following commands are available:"] st in
  let st := emit (flat_map (fun s => [Serial_print "  "; Serial_println s])
                           commands_str) st in
  emit [Serial_println EmptyString;
        Serial_println ("You can for instance type " +:+ dq +:+ "help pmode"
                        +:+ dq +:+ " for more info on the pmode command.")] st.

Definition help_delay (st : state) : state :=
  emit [Serial_println "  Pause execution for a time.  *** Serial buffer overflow danger! ***";
        Serial_println "    delay <milliseconds>";
        Serial_println "      <milliseconds> -> number of milliseconds to delay"] st.

Definition help_pmode (st : state) : state :=
  emit [Serial_println "  Set digital pin mode";
        Serial_println "    pmode <pin> <mode>";
        Serial_println "      <pin> -> digital pin number";
        Serial_println "      <mode> -> mode indicator: I, IP, or O"] st.

Definition help_pr (st : state) : state :=
  emit [Serial_println "  Digital pin read";
        Serial_println "    pr <pin>";
        Serial_println "      <pin> -> digital pin number";
        Serial_println "  Returns value (0 or 1) on the specified pin."] st.

Definition help_pw (st : state) : state :=
  emit [Serial_println "  Write value to digital pin";
        Serial_println "    pw <pin> <value>";
        Serial_println "      <pin> -> digital pin number";
        Serial_println "      <value> -> value to write to pin (0 or 1)"] st.

Definition help_spiend (st : state) : state :=
  emit [Serial_println "  End SPI transaction."] st.

Definition help_spirw (st : state) : state :=
  emit [Serial_println "  Read and Write one byte on SPI";
        Serial_println "    spirw <byte>";
        Serial_println "      <byte> -> number to write, 0 to 255";
        Serial_println "  Returns value read from SPI bus."] st.

Definition help_spirw16 (st : state) : state :=
  emit [Serial_println "  Read and Write a 16-bit (2 byte) value on SPI";
        Serial_println "    spirw <value>";
        Serial_println "      <value> -> number to write, 0 to 65535";
        Serial_println "  Returns value read from SPI bus."] st.

Definition help_spistart (st : state) : state :=
  emit [Serial_println "  Start SPI transaction.";
        Serial_println "    spistart <order> <mode>";
        Serial_println "      <order> -> bit order: lsbfirst or msbfirst";
        Serial_println "      <mode> -> SPI bus mode:  mode0, mode1, mode2, or mode3";
        Serial_println "  If arguments are missing or invalid, then defaults are used."] st.

(** *** Command handlers

    A handler returns its [int] status; [None] stands for the value of a
    function that ends without a [return] statement ([cmd_help]).

    The events carry the values the Arduino functions receive:
    [pinMode], [digitalRead] and [digitalWrite] take the pin as [uint8_t],
    [SPI.transfer16] takes [uint16_t] and [delay] takes [unsigned long], so
    the [int] or [long] of the sketch is converted at the call. *)

Definition handler := env -> state -> option Z * state.

Definition cmd_delay : handler := fun e st =>
  let st := snd (get_token None st) in
  let val := atoi (cstr (args st)) in
  let st := emit [Ev_delay (to_ulong val)] st in
  (Some 0%Z, st).

Definition cmd_help : handler := fun e st =>
  let st := snd (get_token None st) in
  let st :=
    if (byte_at (args st) 0 =? 0)%Z then help_help st
    else if args_is st (str_at commands_str 0) then help_delay st
    else if args_is st (str_at commands_str 1) then help_help st
    else if args_is st (str_at commands_str 2) then help_pmode st
    else if args_is st (str_at commands_str 3) then help_pr st
    else if args_is st (str_at commands_str 4) then help_pw st
    else if args_is st (str_at commands_str 5) then help_spiend st
    else if args_is st (str_at commands_str 6) then help_spirw st
    else if args_is st (str_at commands_str 7) then help_spirw16 st
    else if args_is st (str_at commands_str 8) then help_spistart st
    else help_help st in
  (None, st).

Definition cmd_pmode : handler := fun e st =>
  let st := snd (get_token None st) in
  let pinnum := atoi (cstr (args st)) in
  let st := snd (get_token None st) in
  let st :=
    if args_is st (str_at pmode_args 0) then
      emit [Ev_pinMode (to_uint8 pinnum) INPUT] st
    else if args_is st (str_at pmode_args 1) then
      emit [Ev_pinMode (to_uint8 pinnum) INPUT_PULLUP] st
    else if args_is st (str_at pmode_args 2) then
      emit [Ev_pinMode (to_uint8 pinnum) OUTPUT] st
    else st in
  (Some 0%Z, st).

(** [pinnum = atoi(args[1]);] passes the character [args[1]] where [atoi]
    takes a pointer, so the number is read from the memory that character
    addresses, not from the token. *)
Definition cmd_pr : handler := fun e st =>
  let st := snd (get_token None st) in
  let pinnum := atoi (mem_str e (byte_at (args st) 1)) in
  let val := digitalRead e (to_uint8 pinnum) in
  let st := emit [Ev_digitalRead (to_uint8 pinnum)] st in
  if (LOW =? val)%Z then (Some 0%Z, emit [Serial_println_int 0] st)
  else if (HIGH =? val)%Z then (Some 1%Z, emit [Serial_println_int 1] st)
  else (Some (-1)%Z, st).

Definition cmd_pw : handler := fun e st =>
  let st := snd (get_token None st) in
  let pinnum := atoi (cstr (args st)) in
  let st := snd (get_token None st) in
  let val := atoi (cstr (args st)) in
  let st :=
    if (0 =? val)%Z then emit [Ev_digitalWrite (to_uint8 pinnum) LOW] st
    else if (1 =? val)%Z then emit [Ev_digitalWrite (to_uint8 pinnum) HIGH] st
    else emit [Serial_println "Digital pin write value error"] st in
  (Some 0%Z, st).

Definition cmd_spiend : handler := fun e st =>
  let st := emit [Ev_digitalWrite (SPI_SSPIN e) HIGH] st in
  let st := emit [SPI_endTransaction] st in
  (Some 0%Z, st).

Definition cmd_spirw : handler := fun e st =>
  let st := snd (get_token None st) in
  let write_val := wrap8 (atoi (cstr (args st))) in
  let rx_val := wrap8 (SPI_transfer_rx e write_val) in
  let st := emit [SPI_transfer write_val] st in
  let st := emit [Serial_println_int rx_val] st in
  (Some rx_val, st).

Definition cmd_spirw16 : handler := fun e st =>
  let st := snd (get_token None st) in
  let write_val := atoi (cstr (args st)) in
  let rx_val := wrap16 (SPI_transfer16_rx e (to_uint16 write_val)) in
  let st := emit [SPI_transfer16 (to_uint16 write_val)] st in
  let st := emit [Serial_println_int rx_val] st in
  (Some rx_val, st).

Definition cmd_spistart : handler := fun e st =>
  let order := SPI_ORDER in
  let mode := SPI_MODE in
  let st := snd (get_token None st) in
  let order :=
    if args_is st (str_at spistart_arg1 0) then LSBFIRST
    else if args_is st (str_at spistart_arg1 1) then MSBFIRST
    else order in
  let st := snd (get_token None st) in
  let mode :=
    if args_is st (str_at spistart_arg2 0) then SPI_MODE0
    else if args_is st (str_at spistart_arg2 1) then SPI_MODE1
    else if args_is st (str_at spistart_arg2 2) then SPI_MODE2
    else if args_is st (str_at spistart_arg2 3) then SPI_MODE3
    else mode in
  let st := emit [Ev_pinMode (SPI_SSPIN e) OUTPUT] st in
  let st := emit [SPI_begin] st in
  let st := emit [SPI_beginTransaction SPI_SPEED order mode] st in
  let st := emit [Ev_digitalWrite (SPI_SSPIN e) LOW] st in
  (Some 0%Z, st).

(** *** Dispatch *)

Definition commands_func : list handler :=
  [cmd_delay; cmd_help; cmd_pmode; cmd_pr; cmd_pw; cmd_spiend; cmd_spirw;
   cmd_spirw16; cmd_spistart].

Definition no_handler : handler := fun _ st => (None, st).

(** The [for] loop of [execute], from index [i], with [n] turns left. *)
Fixpoint execute_from (n i : nat) (e : env) (st : state) : option Z * state :=
  match n with
  | O =>
    (Some 0%Z,
     emit [Serial_println ("Invalid command. Type " +:+ dq +:+ "help" +:+ dq
                           +:+ " for more.")] st)
  | S n' =>
    if args_is st (str_at commands_str i) then
      default no_handler (commands_func !! i) e st
    else execute_from n' (S i) e st
  end.

Definition execute (e : env) (st : state) : option Z * state :=
  if (byte_at (args st) 0 =? 0)%Z then
    (Some 0%Z, emit [Serial_println "(Empty Command)"] st)
  else execute_from num_commands 0 e st.

(** *** Main loop body *)

Definition PinCLI (e : env) (rx : list Z) (st : state) : list Z * state :=
  let '(ret, rx', st) := read_input rx st in
  let st :=
    if (0 <? ret)%Z then
      let st := parse_cmd st in
      let st := if negb (error_flag st) then snd (execute e st) else st in
      let st := set_line_buf (memset0 LINE_BUF_SIZE) st in
      let st := set_cp 0 st in
      let st := set_args (memset0 ARG_BUF_SIZE) st in
      send_prompt st
    else st in
  (rx', set_error_flag false st).

(** The sketch from power-up: [setup] once, then [loop] as long as bytes
    keep arriving, one call of [PinCLI] per turn ([n] turns at most). *)
Fixpoint run (n : nat) (e : env) (rx : list Z) (st : state) : state :=
  match n with
  | O => st
  | S n' =>
    match rx with
    | [] => st
    | _ => let '(rx', st') := PinCLI e rx st in run n' e rx' st'
    end
  end.

Definition session (e : env) (rx : list Z) : state :=
  run (S (length rx)) e rx (PinCLI_init boot).

(** A world in which every pin reads low, the bus answers 0 and the memory
    below the sketch's buffers holds no digits. *)
Definition world0 : env := mkEnv false (fun _ => LOW) (fun _ => 0%Z)
                                 (fun _ => 0%Z) (fun _ => []).

(** ** What the specification calls the tokens of a line

    The line is cut at every space; the empty pieces (between two spaces,
    before the first or after the last one) are not tokens. *)

Fixpoint split_on_space (s : list Z) : list (list Z) :=
  match s with
  | [] => [[]]
  | c :: s' =>
    if (c =? SP_CHAR)%Z then [] :: split_on_space s'
    else match split_on_space s' with
         | w :: ws => (c :: w) :: ws
         | [] => [[c]]
         end
  end.

Definition nonempty (w : list Z) : bool :=
  match w with [] => false | _ => true end.

Definition tokens (s : list Z) : list (list Z) :=
  List.filter nonempty (split_on_space s).

(** The tokens that are still ahead of a scan that stands at offset [p]. *)
Definition tokens_from (buf : list Z) (p : nat) : list (list Z) :=
  tokens (cstr (drop p buf)).

(** A byte that can stand inside a C string. *)
Definition nonzero (c : Z) : Prop := c ≠ 0%Z.

(** A byte that can stand inside a token. *)
Definition plain (c : Z) : Prop := c ≠ 0%Z ∧ c ≠ SP_CHAR.

(** Where a call of [strtok] starts to scan. *)
Definition scan_start (s : option nat) (st : state) : option nat :=
  match s with Some p => Some p | None => strtok_last st end.

(** The state that one call of [get_token] leaves behind. *)
Definition token_state (st : state) (err : bool) (buf' a' : list Z) (q : nat)
    (evs : list event) : state :=
  mkState err buf' a' (cp st) (Some q) (trace st ++ evs).

Definition too_long_notice : event := Serial_println "Token too long.".

(** A run of extraction calls; for each call, the exit taken and the token
    the caller then finds in [args]. *)
Fixpoint extract_calls (instrs : list (option nat)) (st : state)
    : list (token_exit * list Z) * state :=
  match instrs with
  | [] => ([], st)
  | i :: instrs' =>
    let '(x, st1) := get_token i st in
    let '(r, st2) := extract_calls instrs' st1 in
    ((x, cstr (args st1)) :: r, st2)
  end.

Definition fits (t : list Z) : Prop := length t ≤ ARG_BUF_SIZE - 1.

(** The state in which the line editor has just reported the line [s]
    complete, typed at the first prompt after power-up. *)
Definition typed (s : string) : state :=
  snd (read_input (bytes_of s ++ [CR_CHAR]) (PinCLI_init boot)).

(** ** The line editor as the specification words it

    A line feed is dropped, a backspace takes the last character away (if
    there is one), any other byte is appended in lower case. *)
Definition edit_step (l : list Z) (c : Z) : list Z :=
  if (c =? LF_CHAR)%Z then l
  else if (c =? BKSP_CHAR)%Z then removelast l
  else l ++ [tolower c].

Definition edited (s : list Z) : list Z := fold_left edit_step s [].

(** A line buffer that holds [l] and is zero behind it. *)
Definition padded (l : list Z) : list Z :=
  l ++ replicate (LINE_BUF_SIZE - length l) 0%Z.

(** What is left of a command cycle of [PinCLI] when [execute] is not
    called: the buffers are cleared, the prompt is sent, the error flag is
    lowered. *)
Definition end_of_cycle (st : state) : state :=
  set_error_flag false
    (send_prompt
       (set_args (memset0 ARG_BUF_SIZE)
          (set_cp 0 (set_line_buf (memset0 LINE_BUF_SIZE) st)))).

Definition empty_command_notice : event := Serial_println "(Empty Command)".

Definition invalid_command_notice : event :=
  Serial_println ("Invalid command. Type " +:+ dq +:+ "help" +:+ dq
                  +:+ " for more.").

(** ** What a handler finds when it asks for its next argument *)

(** The tokens ahead of the saved scan position. *)
Definition pending (st : state) : list (list Z) :=
  match strtok_last st with
  | Some p => tokens_from (line_buf st) p
  | None => []
  end.

Definition too_long (t : option (list Z)) : bool :=
  match t with
  | Some t => negb (length t <? ARG_BUF_SIZE)
  | None => false
  end.

(** The token as [args] holds it after the call: a missing token and a
    token that does not fit both read as the empty string. *)
Definition token_text (t : option (list Z)) : list Z :=
  match t with
  | Some w => if too_long t then [] else w
  | None => []
  end.

Definition token_notice (t : option (list Z)) : list event :=
  if too_long t then [too_long_notice] else [].

(** The argument rules of [spistart], on the tokens of the line. *)
Definition resolve_order (t : option (list Z)) : bit_order :=
  if bool_decide (t = Some (bytes_of "lsbfirst")) then LSBFIRST
  else if bool_decide (t = Some (bytes_of "msbfirst")) then MSBFIRST
  else SPI_ORDER.

Definition resolve_mode (t : option (list Z)) : spi_mode :=
  if bool_decide (t = Some (bytes_of "mode0")) then SPI_MODE0
  else if bool_decide (t = Some (bytes_of "mode1")) then SPI_MODE1
  else if bool_decide (t = Some (bytes_of "mode2")) then SPI_MODE2
  else if bool_decide (t = Some (bytes_of "mode3")) then SPI_MODE3
  else SPI_MODE.

(** The mode rule of [pmode], on the text of the mode token. *)
Definition pmode_events (pin : Z) (m : list Z) : list event :=
  if bool_decide (m = bytes_of "i") then [Ev_pinMode pin INPUT]
  else if bool_decide (m = bytes_of "ip") then [Ev_pinMode pin INPUT_PULLUP]
  else if bool_decide (m = bytes_of "o") then [Ev_pinMode pin OUTPUT]
  else [].

(** The value rule of [pw]. *)
Definition pw_events (pin val : Z) : list event :=
  if (val =? 0)%Z then [Ev_digitalWrite pin LOW]
  else if (val =? 1)%Z then [Ev_digitalWrite pin HIGH]
  else [Serial_println "Digital pin write value error"].

(** A world in which pin 7 reads low, every other pin reads high, and the
    memory below the sketch's buffers holds no digits. *)
Definition world_pin7_low : env :=
  mkEnv false (fun pin => if (pin =? 7)%Z then LOW else HIGH)
        (fun _ => 0%Z) (fun _ => 0%Z) (fun _ => []).

(** The bytes of a command line ended by a carriage return. *)
Definition line (s : string) : list Z := bytes_of s ++ [CR_CHAR].

(** A line buffer filled to the last free place: LINE_BUF_SIZE - 1 times
    the letter [a], typed at the first prompt. *)
Definition full_line : state :=
  snd (read_input (replicate (LINE_BUF_SIZE - 1) 97%Z) (PinCLI_init boot)).

Definition long_token : list Z := replicate 20 97%Z.
Definition long_word : string := "aaaaaaaaaaaaaaaaaaaa".

(** ** Well-formed states

    The line buffer has its declared size, the cursor stays below it and
    every byte from the cursor on is NUL (so the line is always a C string
    that ends inside the array). *)
Definition line_ok (st : state) : Prop :=
  length (line_buf st) = LINE_BUF_SIZE ∧
  cp st < LINE_BUF_SIZE ∧
  ∀ i, cp st ≤ i → i < LINE_BUF_SIZE → line_buf st !! i = Some 0%Z.

(** Both buffers have their declared sizes and [strtok]'s saved pointer,
    when set, points into the line buffer. *)
Definition well_formed (st : state) : Prop :=
  line_ok st ∧
  length (args st) = ARG_BUF_SIZE ∧
  ∀ p, strtok_last st = Some p → p < LINE_BUF_SIZE.

(** A byte the line editor stores as it is: not a control byte of the
    editor and not an upper-case letter. *)
Definition storable (c : Z) : Prop :=
  c ≠ LF_CHAR ∧ c ≠ CR_CHAR ∧ c ≠ BKSP_CHAR ∧ ¬ (65 ≤ c ≤ 90)%Z.

(** A byte the line editor appends to the line. *)
Definition ordinary (c : Z) : Prop :=
  c ≠ LF_CHAR ∧ c ≠ CR_CHAR ∧ c ≠ BKSP_CHAR.

Definition is_serial (ev : event) : bool :=
  match ev with
  | Serial_write _ | Serial_print _ | Serial_println _
  | Serial_println_int _ => true
  | _ => false
  end.

Definition not_lf (c : Z) : bool := negb (c =? LF_CHAR)%Z.

(** The events of [help_help], [help_delay], ... as lists. *)
Definition help_events (h : state → state) : list event :=
  trace (h (mkState false [] [] 0 None [])).

(** The topic rule of [help], on the text of its argument. *)
Definition help_topic (w : list Z) : list event :=
  if bool_decide (w = bytes_of "delay") then help_events help_delay
  else if bool_decide (w = bytes_of "help") then help_events help_help
  else if bool_decide (w = bytes_of "pmode") then help_events help_pmode
  else if bool_decide (w = bytes_of "pr") then help_events help_pr
  else if bool_decide (w = bytes_of "pw") then help_events help_pw
  else if bool_decide (w = bytes_of "spiend") then help_events help_spiend
  else if bool_decide (w = bytes_of "spirw") then help_events help_spirw
  else if bool_decide (w = bytes_of "spirw16") then help_events help_spirw16
  else if bool_decide (w = bytes_of "spistart") then help_events help_spistart
  else help_events help_help.

(** A byte that reaches the line buffer unchanged and does not end a C
    string. *)
Definition line_byte (c : Z) : Prop :=
  nonzero c ∧ ordinary c ∧ ¬ (65 ≤ c ≤ 90)%Z.

(** An argument as it is typed: not empty, without spaces, short enough
    for the token buffer. *)
Definition word (w : list Z) : Prop :=
  w ≠ [] ∧ Forall line_byte w ∧ Forall plain w ∧ fits w.

(** The line [pw <pin> <val>]. *)
Definition pw_line (pin val : list Z) : list Z :=
  bytes_of "pw" ++ SP_CHAR :: pin ++ SP_CHAR :: val.


(** * Proofs *)

(** ** Lists of bytes: auxiliary facts *)

Lemma split_on_space_word w x :
  Forall plain w →
  split_on_space (w ++ SP_CHAR :: x) = w :: split_on_space x.
Proof.
  induction 1 as [|c w [_ Hc] _ IH]; simpl; [done|].
  destruct (Z.eqb_spec c SP_CHAR); [done|]. by rewrite IH.
Qed.

Lemma split_on_space_last w : Forall plain w → split_on_space w = [w].
Proof.
  induction 1 as [|c w [_ Hc] _ IH]; simpl; [done|].
  destruct (Z.eqb_spec c SP_CHAR); [done|]. by rewrite IH.
Qed.

Lemma tokens_space s : tokens (SP_CHAR :: s) = tokens s.
Proof. reflexivity. Qed.

Lemma tokens_spaces n s : tokens (replicate n SP_CHAR ++ s) = tokens s.
Proof. induction n; simpl; [done|]. by rewrite tokens_space. Qed.

Lemma tokens_word c w x :
  Forall plain (c :: w) →
  tokens ((c :: w) ++ SP_CHAR :: x) = (c :: w) :: tokens x.
Proof. intros H. unfold tokens. by rewrite split_on_space_word. Qed.

Lemma tokens_last c w : Forall plain (c :: w) → tokens (c :: w) = [c :: w].
Proof. intros H. unfold tokens. by rewrite split_on_space_last. Qed.

Lemma cstr_spaces n s :
  cstr (replicate n SP_CHAR ++ s) = replicate n SP_CHAR ++ cstr s.
Proof. induction n; simpl; [done|]. by rewrite IHn. Qed.

Lemma cstr_plain w s : Forall plain w → cstr (w ++ s) = w ++ cstr s.
Proof.
  induction 1 as [|c w [Hc _] _ IH]; simpl; [done|].
  destruct (Z.eqb_spec c 0); [done|]. by rewrite IH.
Qed.

Lemma cstr_plain_end w : Forall plain w → cstr w = w.
Proof.
  intros H. rewrite <- (app_nil_r w) at 1. rewrite cstr_plain by done.
  apply app_nil_r.
Qed.

Lemma cstr_plain_nul w s : Forall plain w → cstr (w ++ 0%Z :: s) = w.
Proof. intros H. rewrite cstr_plain by done. apply app_nil_r. Qed.

(** The shape of a string as [strspn] sees it: spaces, then the rest. *)
Lemma strspn_sp_shape s :
  s = replicate (strspn_sp s) SP_CHAR ++ drop (strspn_sp s) s ∧
  byte_at (drop (strspn_sp s) s) 0 ≠ SP_CHAR.
Proof.
  induction s as [|c s [IH1 IH2]]; simpl; [done|].
  destruct (Z.eqb_spec c SP_CHAR) as [->|Hc]; simpl.
  - split; [by rewrite <- IH1 | done].
  - done.
Qed.

(** The shape of a string as [strcspn] sees it: a run of plain bytes, then
    the end of the array, a NUL or a space. *)
Lemma strcspn_sp_shape s :
  let n := strcspn_sp s in
  Forall plain (take n s) ∧
  (drop n s = [] ∨ ∃ r, drop n s = 0%Z :: r ∨ drop n s = SP_CHAR :: r).
Proof.
  induction s as [|c s [IH1 IH2]]; simpl; [by split; [constructor | left]|].
  destruct (Z.eqb_spec c 0) as [->|H0]; simpl.
  { split; [constructor | right; eauto]. }
  destruct (Z.eqb_spec c SP_CHAR) as [->|Hs]; simpl.
  { split; [constructor | right; eauto]. }
  split; [by constructor | done].
Qed.

Lemma strcspn_sp_pos s :
  byte_at s 0 ≠ 0%Z → byte_at s 0 ≠ SP_CHAR → 0 < strcspn_sp s.
Proof.
  destruct s as [|c s]; unfold byte_at; simpl; [done|]. intros H0 Hs.
  destruct (Z.eqb_spec c 0); [done|].
  destruct (Z.eqb_spec c SP_CHAR); [done|]. simpl. lia.
Qed.

Lemma byte_at_drop buf p i : byte_at (drop p buf) i = byte_at buf (p + i).
Proof. unfold byte_at. by rewrite lookup_drop. Qed.

(** What [strtok] finds at the head of a string that starts with a plain
    byte: the token runs to the end of the string, or to a space that is
    then replaced by NUL. *)
Lemma scan_word s :
  let n := strcspn_sp s in
  byte_at s 0 ≠ 0%Z → byte_at s 0 ≠ SP_CHAR →
  tokens (take n s) = [take n s] ∧
  ((byte_at s n = 0%Z ∧ cstr s = take n s ∧
    tokens (cstr s) = [take n s] ∧ tokens (cstr (drop n s)) = [])
   ∨
   (s !! n = Some SP_CHAR ∧ cstr (<[n := 0%Z]> s) = take n s ∧
    tokens (cstr s) = take n s :: tokens (cstr (drop (S n) s)))).
Proof.
  intros n H0 Hs.
  pose proof (strcspn_sp_pos s H0 Hs) as Hpos. fold n in Hpos.
  destruct (strcspn_sp_shape s) as [Hw Hrest]. fold n in Hw, Hrest.
  assert (Hne : take n s ≠ []).
  { destruct s; [done|]. destruct n; [lia | done]. }
  assert (Hat : byte_at s n = byte_at (drop n s) 0).
  { by rewrite byte_at_drop, Nat.add_0_r. }
  pose proof (take_drop n s) as Hsplit.
  destruct (take n s) as [|c w] eqn:Htk; [done|].
  split; [by apply tokens_last|].
  destruct Hrest as [Hnil | [r [Hnul | Hsp]]].
  - left. rewrite Hat, Hnil. rewrite Hnil, app_nil_r in Hsplit.
    rewrite <- Hsplit. rewrite cstr_plain_end by done.
    repeat split; by apply tokens_last.
  - left. rewrite Hat, Hnul. rewrite Hnul in Hsplit. rewrite <- Hsplit.
    rewrite cstr_plain_nul by done.
    repeat split; by apply tokens_last.
  - right. assert (Hlk : s !! n = Some SP_CHAR).
    { rewrite <- (Nat.add_0_r n), <- lookup_drop, Hsp. reflexivity. }
    assert (Hlen : length (c :: w) = n).
    { rewrite <- Htk, length_take. apply lookup_lt_Some in Hlk. lia. }
    assert (Hr : drop (S n) s = r).
    { replace (S n) with (n + 1) by lia.
      rewrite <- (drop_drop s 1 n), Hsp. reflexivity. }
    rewrite Hsp in Hsplit. rewrite Hr. split; [done|]. split.
    + rewrite <- Hsplit at 1. rewrite <- Hlen at 1.
      rewrite <- (Nat.add_0_r (length (c :: w))), insert_app_r. simpl insert.
      change (list_insert 0 0%Z (SP_CHAR :: r)) with (0%Z :: r).
      by rewrite cstr_plain_nul.
    + rewrite <- Hsplit at 1. rewrite cstr_plain by done.
      simpl cstr at 1. by rewrite tokens_word.
Qed.

(** ** The tokenizer against the tokens of the line *)

Lemma cstr_head_nul s : byte_at s 0 = 0%Z → cstr s = [].
Proof.
  destruct s as [|c s]; [done|]. unfold byte_at; simpl. by intros ->.
Qed.

Lemma set_line_buf_same st : set_line_buf (line_buf st) st = st.
Proof. by destruct st. Qed.

Lemma strtok_spec s st p :
  scan_start s st = Some p →
  match tokens_from (line_buf st) p with
  | [] =>
    ∃ q, strtok s st = (None, set_strtok_last (Some q) st) ∧
         tokens_from (line_buf st) q = []
  | t :: ts =>
    ∃ b q buf',
      strtok s st = (Some b, set_strtok_last (Some q) (set_line_buf buf' st)) ∧
      cstr (drop b buf') = t ∧ tokens_from buf' q = ts ∧
      tokens_from buf' p = [t]
  end.
Proof.
  intros Hp. unfold strtok. fold (scan_start s st). rewrite Hp.
  set (buf := line_buf st). unfold tokens_from.
  set (k := strspn_sp (drop p buf)).
  destruct (strspn_sp_shape (drop p buf)) as [Hsh Hnsp]. fold k in Hsh, Hnsp.
  rewrite drop_drop in Hsh, Hnsp.
  set (s1 := drop (p + k) buf) in *.
  assert (Hb : byte_at buf (p + k) = byte_at s1 0).
  { unfold s1. by rewrite byte_at_drop, Nat.add_0_r. }
  rewrite Hb, Hsh, cstr_spaces, tokens_spaces.
  destruct (Z.eqb_spec (byte_at s1 0) 0) as [H0|H0].
  { rewrite (cstr_head_nul _ H0). simpl. exists (p + k). split; [done|].
    fold s1. by rewrite (cstr_head_nul _ H0). }
  destruct (scan_word s1 H0 Hnsp) as [Hw Hcases].
  set (n := strcspn_sp s1) in *.
  assert (He : byte_at buf (p + k + n) = byte_at s1 n).
  { unfold s1. by rewrite byte_at_drop. }
  rewrite He.
  destruct Hcases as [(Hat & Hc & Ht & Hr) | (Hlk & Hc & Ht)].
  - rewrite Hat, Ht. simpl. exists (p + k), (p + k + n), buf.
    split; [|split; [|split]].
    + unfold buf. by rewrite set_line_buf_same.
    + done.
    + rewrite <- drop_drop. by fold s1.
    + by rewrite Hsh, cstr_spaces, tokens_spaces.
  - assert (Hat : byte_at s1 n = SP_CHAR) by (unfold byte_at; by rewrite Hlk).
    rewrite Hat, Ht. simpl.
    exists (p + k), (S (p + k + n)), (<[p + k + n := 0%Z]> buf).
    split; [done|]. split; [|split].
    + rewrite drop_insert_ge by lia. fold s1.
      by replace (p + k + n - (p + k)) with n by lia.
    + rewrite drop_insert_lt by lia.
      replace (S (p + k + n)) with (p + k + S n) by lia.
      rewrite <- drop_drop. by fold s1.
    + rewrite drop_insert_ge by lia. rewrite Hsh.
      rewrite insert_app_r_alt by (rewrite length_replicate; lia).
      rewrite length_replicate.
      replace (p + k + n - p - k) with n by lia.
      by rewrite cstr_spaces, tokens_spaces, Hc.
Qed.

Lemma get_token_spec instr st p :
  scan_start instr st = Some p →
  ∃ q buf',
    tokens_from buf' q = tail (tokens_from (line_buf st) p) ∧
    tokens_from buf' p = take 1 (tokens_from (line_buf st) p) ∧
    get_token instr st =
      match tokens_from (line_buf st) p with
      | [] =>
        (EndOfLine,
         token_state st (error_flag st) buf' (<[0 := 0%Z]> (args st)) q [])
      | t :: _ =>
        if length t <? ARG_BUF_SIZE then
          (Found,
           token_state st (error_flag st) buf'
                       (strcpy (<[0 := 0%Z]> (args st)) t) q [])
        else
          (TooLong,
           token_state st true buf' (<[0 := 0%Z]> (args st)) q
                       [too_long_notice])
      end.
Proof.
  intros Hp. unfold get_token.
  set (st0 := set_args (<[0 := 0%Z]> (args st)) st).
  pose proof (strtok_spec instr st0 p) as Hs.
  assert (Hp0 : scan_start instr st0 = Some p) by (by destruct instr).
  specialize (Hs Hp0). change (line_buf st0) with (line_buf st) in Hs.
  destruct (tokens_from (line_buf st) p) as [|t ts] eqn:Htoks.
  - destruct Hs as (q & -> & Hq). exists q, (line_buf st).
    split; [done|]. split; [done|].
    unfold token_state. by rewrite app_nil_r.
  - destruct Hs as (b & q & buf' & -> & Hc & Hq & Hp1). exists q, buf'.
    split; [done|]. split; [done|]. simpl line_buf. rewrite Hc.
    destruct (length t <? ARG_BUF_SIZE); unfold token_state; simpl;
      by rewrite ?app_nil_r.
Qed.

Lemma cstr_idem s : cstr (cstr s) = cstr s.
Proof.
  induction s as [|c s IH]; simpl; [done|].
  destruct (Z.eqb_spec c 0) as [|Hc]; [done|]. simpl.
  destruct (Z.eqb_spec c 0); [done|]. by rewrite IH.
Qed.

Lemma cstr_app_nul t x : cstr (t ++ 0%Z :: x) = cstr t.
Proof.
  induction t as [|c t IH]; simpl; [done|].
  destruct (c =? 0)%Z; [done|]. by rewrite IH.
Qed.

(** A token holds no NUL. *)
Lemma tokens_from_cstr buf p t ts : tokens_from buf p = t :: ts → cstr t = t.
Proof.
  intros Ht.
  pose proof (strtok_spec (Some p) (mkState false buf [] 0 None []) p eq_refl)
    as Hs.
  simpl line_buf in Hs. rewrite Ht in Hs.
  destruct Hs as (b & q & buf' & _ & <- & _). apply cstr_idem.
Qed.

Lemma cstr_strcpy a t : cstr (strcpy a t) = cstr t.
Proof. unfold strcpy. apply cstr_app_nul. Qed.

Lemma cstr_clear_head (a : list Z) : cstr (<[0 := 0%Z]> a) = [].
Proof. by destruct a. Qed.

Lemma extract_calls_tokens toks : ∀ i st p,
  scan_start i st = Some p →
  tokens_from (line_buf st) p = toks →
  Forall fits toks →
  fst (extract_calls (i :: replicate (length toks) None) st) =
    map (λ t, (Found, t)) toks ++ [(EndOfLine, [])].
Proof.
  induction toks as [|t ts IH]; intros i st p Hp Ht Hfit.
  - destruct (get_token_spec i st p Hp) as (q & buf' & _ & _ & Hg).
    rewrite Ht in Hg. simpl. rewrite Hg. simpl.
    by rewrite cstr_clear_head.
  - destruct (get_token_spec i st p Hp) as (q & buf' & Hq & _ & Hg).
    rewrite Ht in Hg, Hq. simpl in Hq.
    apply Forall_cons in Hfit as [Hfit1 Hfit].
    assert (Hlt : (length t <? ARG_BUF_SIZE) = true).
    { apply Nat.ltb_lt. unfold fits, ARG_BUF_SIZE in *. lia. }
    rewrite Hlt in Hg.
    change (replicate (length (t :: ts)) None)
      with (@None nat :: replicate (length ts) None).
    remember (@None nat :: replicate (length ts) None) as rest.
    simpl. rewrite Hg.
    set (st1 := token_state _ _ _ _ _ _).
    specialize (IH None st1 q eq_refl Hq Hfit). subst rest.
    destruct (extract_calls _ st1) as [r st2]. simpl in IH. simpl.
    rewrite IH. f_equal. f_equal. rewrite cstr_strcpy.
    by apply (tokens_from_cstr _ _ _ _ Ht).
Qed.

(** C6. For a complete line with N space-delimited tokens, none longer than
    the token buffer can hold (ARG_BUF_SIZE - 1 bytes), one call of
    [get_token] on the line followed by N calls with a null input string
    gives: the N tokens in their order in the line (calls 1 to N, each
    leaving by the copy exit), then an empty token and the end-of-line exit
    (call N+1). *)
Theorem get_token_sequence (st : state) :
  let toks := tokens (cstr (line_buf st)) in
  Forall fits toks →
  fst (extract_calls (Some 0 :: replicate (length toks) None) st) =
    map (λ t, (Found, t)) toks ++ [(EndOfLine, [])].
Proof.
  intros toks Hfit. by apply (extract_calls_tokens toks (Some 0) st 0).
Qed.

(** ** What the tokenizer does to the line buffer *)

Lemma strcspn_sp_stop s :
  byte_at s (strcspn_sp s) ≠ 0%Z → s !! strcspn_sp s = Some SP_CHAR.
Proof.
  destruct (strcspn_sp_shape s) as [_ Hrest]. revert Hrest.
  set (n := strcspn_sp s). intros Hrest.
  replace n with (n + 0) by lia.
  rewrite <- byte_at_drop, <- lookup_drop.
  destruct Hrest as [-> | [r [-> | ->]]]; done.
Qed.

Lemma strtok_line_effect s st :
  line_buf (snd (strtok s st)) = line_buf st ∨
  ∃ e, line_buf st !! e = Some SP_CHAR ∧
       line_buf (snd (strtok s st)) = <[e := 0%Z]> (line_buf st).
Proof.
  unfold strtok. destruct (match s with Some p => _ | None => _ end) as [p|];
    [|by left].
  set (b := p + _). destruct (byte_at (line_buf st) b =? 0)%Z; [by left|].
  set (n := strcspn_sp _).
  destruct (Z.eqb_spec (byte_at (line_buf st) (b + n)) 0) as [|Hne];
    [by left|].
  right. exists (b + n). split; [|done].
  rewrite <- byte_at_drop in Hne. rewrite <- lookup_drop.
  by apply strcspn_sp_stop.
Qed.

Lemma get_token_line_buf i st :
  line_buf (snd (get_token i st)) =
  line_buf (snd (strtok i (set_args (<[0 := 0%Z]> (args st)) st))).
Proof.
  unfold get_token. destruct (strtok _ _) as [[t|] st1]; simpl; [|done].
  by destruct (_ <? _).
Qed.

Lemma get_token_line_effect i st :
  line_buf (snd (get_token i st)) = line_buf st ∨
  ∃ e, line_buf st !! e = Some SP_CHAR ∧
       line_buf (snd (get_token i st)) = <[e := 0%Z]> (line_buf st).
Proof.
  rewrite get_token_line_buf.
  apply (strtok_line_effect i (set_args (<[0 := 0%Z]> (args st)) st)).
Qed.

Lemma extract_calls_snd i instrs st :
  snd (extract_calls (i :: instrs) st) =
  snd (extract_calls instrs (snd (get_token i st))).
Proof.
  simpl. destruct (get_token i st) as [x st1]. simpl.
  by destruct (extract_calls instrs st1).
Qed.

Lemma strcspn_sp_le s : strcspn_sp s ≤ length s.
Proof.
  induction s as [|c s IH]; simpl; [lia|].
  destruct ((c =? 0)%Z || (c =? SP_CHAR)%Z); simpl; lia.
Qed.

(** Where [strtok] writes when a token is ahead: the scan skips the spaces
    up to the token at [b]; the byte behind the token is a space, which
    becomes NUL, or the NUL that ends the line, and then nothing is
    written. *)
Lemma strtok_token_write s st p t ts :
  scan_start s st = Some p →
  tokens_from (line_buf st) p = t :: ts →
  ∃ b, p ≤ b ∧
    drop p (line_buf st) = replicate (b - p) SP_CHAR ++ drop b (line_buf st) ∧
    take (length t) (drop b (line_buf st)) = t ∧
    ((line_buf st !! (b + length t) = Some SP_CHAR ∧
      line_buf (snd (strtok s st)) = <[b + length t := 0%Z]> (line_buf st)) ∨
     (byte_at (line_buf st) (b + length t) = 0%Z ∧
      line_buf (snd (strtok s st)) = line_buf st)).
Proof.
  intros Hp Ht. unfold strtok. fold (scan_start s st). rewrite Hp.
  unfold tokens_from in Ht. set (buf := line_buf st) in *.
  set (k := strspn_sp (drop p buf)).
  destruct (strspn_sp_shape (drop p buf)) as [Hsh Hnsp]. fold k in Hsh, Hnsp.
  rewrite drop_drop in Hsh, Hnsp.
  set (s1 := drop (p + k) buf) in *.
  assert (Hb : byte_at buf (p + k) = byte_at s1 0).
  { unfold s1. by rewrite byte_at_drop, Nat.add_0_r. }
  rewrite Hsh, cstr_spaces, tokens_spaces in Ht.
  exists (p + k). split; [lia|].
  split; [by replace (p + k - p) with k by lia|].
  rewrite Hb. destruct (Z.eqb_spec (byte_at s1 0) 0) as [H0|H0].
  { by rewrite (cstr_head_nul _ H0) in Ht. }
  destruct (scan_word s1 H0 Hnsp) as [_ Hcases].
  pose proof (strcspn_sp_le s1) as Hn.
  set (n := strcspn_sp s1) in *.
  assert (He : byte_at buf (p + k + n) = byte_at s1 n).
  { unfold s1. by rewrite byte_at_drop. }
  assert (Hlen : length (take n s1) = n) by (by apply length_take_le).
  destruct Hcases as [(Hat & _ & Ht' & _) | (Hlk & _ & Ht')].
  - rewrite Ht' in Ht. injection Ht as <- <-. rewrite Hlen, He, Hat.
    split; [done|]. right. by split.
  - rewrite Ht' in Ht. injection Ht as <- <-. rewrite Hlen, He.
    assert (Hat : byte_at s1 n = SP_CHAR) by (unfold byte_at; by rewrite Hlk).
    rewrite Hat. split; [done|]. left. split; [|done].
    unfold s1 in Hlk. by rewrite lookup_drop in Hlk.
Qed.

(** C2, as the code has it.  Token extraction is not read-only on the line
    buffer: [strtok] ends the token its scan has reached by storing a NUL
    over the space behind it.  A call that finds a token ahead (whether
    the token is then copied to the token buffer or refused as too long)
    skips the spaces before it and overwrites exactly the byte directly
    behind the token when that byte is a space; when the token runs to the
    NUL that ends the line, nothing is written.  A call that finds no
    token writes nothing.  So one call changes at most one byte, a space
    that becomes NUL, and after any sequence of calls the buffer has its
    old length and every byte is either what it was or a former space that
    is now NUL. *)
Theorem get_token_only_ends_tokens (instrs : list (option nat)) (st : state) :
  (∀ i, line_buf (snd (get_token i st)) = line_buf st ∨
        ∃ e, line_buf st !! e = Some SP_CHAR ∧
             line_buf (snd (get_token i st)) = <[e := 0%Z]> (line_buf st)) ∧
  (∀ i p t ts,
     scan_start i st = Some p →
     tokens_from (line_buf st) p = t :: ts →
     ∃ b, p ≤ b ∧
       drop p (line_buf st) =
         replicate (b - p) SP_CHAR ++ drop b (line_buf st) ∧
       take (length t) (drop b (line_buf st)) = t ∧
       ((fst (get_token i st) = Found ∧
         cstr (args (snd (get_token i st))) = t) ∨
        fst (get_token i st) = TooLong) ∧
       ((line_buf st !! (b + length t) = Some SP_CHAR ∧
         line_buf (snd (get_token i st)) =
           <[b + length t := 0%Z]> (line_buf st)) ∨
        (byte_at (line_buf st) (b + length t) = 0%Z ∧
         line_buf (snd (get_token i st)) = line_buf st))) ∧
  (∀ i,
     scan_start i st = None ∨
     (∃ p, scan_start i st = Some p ∧ tokens_from (line_buf st) p = []) →
     fst (get_token i st) = EndOfLine ∧
     line_buf (snd (get_token i st)) = line_buf st) ∧
  length (line_buf (snd (extract_calls instrs st))) = length (line_buf st) ∧
  ∀ k, line_buf (snd (extract_calls instrs st)) !! k = line_buf st !! k ∨
       (line_buf st !! k = Some SP_CHAR ∧
        line_buf (snd (extract_calls instrs st)) !! k = Some 0%Z).
Proof.
  split; [intros i; apply get_token_line_effect|].
  split.
  { intros i p t ts Hp Ht.
    set (st0 := set_args (<[0 := 0%Z]> (args st)) st).
    assert (Hp0 : scan_start i st0 = Some p) by (by destruct i).
    destruct (strtok_token_write i st0 p t ts Hp0 Ht)
      as (b & Hb & Hsp & Htok & Hwr).
    exists b. rewrite get_token_line_buf. fold st0.
    split; [done|]. split; [done|]. split; [done|]. split; [|exact Hwr].
    destruct (get_token_spec i st p Hp) as (q & buf' & _ & _ & Hg).
    rewrite Ht in Hg. rewrite Hg.
    destruct (length t <? ARG_BUF_SIZE); [left | by right].
    split; [done|]. simpl.
    by rewrite cstr_strcpy, (tokens_from_cstr _ _ _ _ Ht). }
  split.
  { intros i Hnone.
    set (st0 := set_args (<[0 := 0%Z]> (args st)) st).
    destruct Hnone as [Hnone | (p & Hp & Ht)].
    - assert (Hs : strtok i st0 = (None, st0)).
      { unfold strtok. fold (scan_start i st0).
        by replace (scan_start i st0) with (@None nat) by (by destruct i). }
      unfold get_token. fold st0. by rewrite Hs.
    - destruct (get_token_spec i st p Hp) as (q & buf' & _ & _ & Hg).
      rewrite Ht in Hg. split; [by rewrite Hg|].
      rewrite get_token_line_buf. fold st0.
      assert (Hp0 : scan_start i st0 = Some p) by (by destruct i).
      pose proof (strtok_spec i st0 p Hp0) as Hs.
      change (line_buf st0) with (line_buf st) in Hs. rewrite Ht in Hs.
      destruct Hs as (q' & -> & _). reflexivity. }
  revert st. induction instrs as [|i instrs IH]; intros st.
  { split; [done | by left]. }
  rewrite extract_calls_snd.
  destruct (IH (snd (get_token i st))) as [IHlen IHk].
  destruct (get_token_line_effect i st) as [Heq | (e & He & Heq)].
  - rewrite Heq in IHlen, IHk. split; [done|]. apply IHk.
  - rewrite Heq in IHlen, IHk. rewrite length_insert in IHlen.
    split; [done|]. intros k. specialize (IHk k).
    destruct (decide (e = k)) as [<-|Hne].
    + rewrite list_lookup_insert_eq in IHk
        by (by apply lookup_lt_Some in He).
      right. split; [done|]. destruct IHk as [?|[? ?]]; [done | congruence].
    + by rewrite list_lookup_insert_ne in IHk.
Qed.

(** C2 as stated fails: after [pr 7] is typed, extracting the command name
    turns the space at offset 2 of the line buffer into NUL. *)
Lemma get_token_writes_line_buf :
  line_buf (typed "pr 7") !! 2 = Some SP_CHAR ∧
  line_buf (snd (get_token (Some 0) (typed "pr 7"))) !! 2 = Some 0%Z ∧
  line_buf (snd (get_token (Some 0) (typed "pr 7"))) ≠ line_buf (typed "pr 7").
Proof.
  split; [reflexivity|]. split; [reflexivity|].
  intros H. apply (f_equal (λ l, l !! 2)) in H. vm_compute in H. congruence.
Qed.

(** The write happens on the too-long exit as well: on the line
    [pw aaaaaaaaaaaaaaaaaaaa 1] the second extraction refuses the word of
    20 characters, hands over no token, and has turned the space behind
    the word (offset 23) into NUL. *)
Lemma get_token_too_long_writes :
  let st := parse_cmd (typed ("pw " +:+ long_word +:+ " 1")) in
  line_buf st !! 23 = Some SP_CHAR ∧
  fst (get_token None st) = TooLong ∧
  cstr (args (snd (get_token None st))) = [] ∧
  line_buf (snd (get_token None st)) = <[23 := 0%Z]> (line_buf st).
Proof.
  cbv zeta.
  split; [vm_compute; reflexivity|].
  split; [vm_compute; reflexivity|].
  split; vm_compute; reflexivity.
Qed.

(** ** Scanning the same line twice *)



(** ** The line editor *)

Lemma padded_store l c :
  length l < LINE_BUF_SIZE →
  <[length l := c]> (padded l) = padded (l ++ [c]).
Proof.
  intros Hl. unfold padded.
  rewrite <- (Nat.add_0_r (length l)) at 1. rewrite insert_app_r.
  rewrite length_app. simpl length.
  replace (LINE_BUF_SIZE - length l)
    with (S (LINE_BUF_SIZE - (length l + 1))) by lia.
  simpl. by rewrite <- app_assoc.
Qed.

Lemma padded_erase l x :
  length l < LINE_BUF_SIZE →
  <[length l := 0%Z]> (padded (l ++ [x])) = padded l.
Proof.
  intros Hl. unfold padded. rewrite <- app_assoc. simpl.
  rewrite <- (Nat.add_0_r (length l)) at 1. rewrite insert_app_r.
  rewrite length_app. simpl length.
  replace (LINE_BUF_SIZE - length l)
    with (S (LINE_BUF_SIZE - (length l + 1))) by lia.
  reflexivity.
Qed.

Lemma read_input_body_edit c l st :
  line_buf st = padded l → cp st = length l →
  c ≠ CR_CHAR →
  length (edit_step l c) ≤ LINE_BUF_SIZE - 1 →
  ∃ st1, read_input_body c st = (false, st1) ∧
         line_buf st1 = padded (edit_step l c) ∧
         cp st1 = length (edit_step l c).
Proof.
  intros Hbuf Hcp Hcr Hfit. unfold read_input_body, edit_step in *.
  rewrite (Z.eqb_sym LF_CHAR c), (Z.eqb_sym CR_CHAR c), (Z.eqb_sym BKSP_CHAR c).
  destruct (Z.eqb_spec c LF_CHAR); [by eauto|].
  destruct (Z.eqb_spec c CR_CHAR); [done|].
  destruct (Z.eqb_spec c BKSP_CHAR).
  - rewrite Hcp. destruct l as [|x l _] using rev_ind.
    { simpl. eauto. }
    rewrite length_app, removelast_last. simpl length.
    replace (0 <? length l + 1) with true by (symmetry; apply Nat.ltb_lt; lia).
    eexists. split; [reflexivity|]. simpl.
    replace (pred (length l + 1)) with (length l) by lia.
    rewrite removelast_last in Hfit.
    split; [|done]. rewrite Hbuf. apply padded_erase.
    unfold LINE_BUF_SIZE in *. lia.
  - rewrite length_app in Hfit. simpl in Hfit. rewrite Hcp.
    replace (length l <? LINE_BUF_SIZE - 1) with true
      by (symmetry; apply Nat.ltb_lt; unfold LINE_BUF_SIZE in *; lia).
    eexists. split; [reflexivity|]. simpl. rewrite Hcp, Hbuf.
    split; [|rewrite length_app; simpl; lia].
    apply padded_store. unfold LINE_BUF_SIZE in *. lia.
Qed.

Lemma read_input_edits s : ∀ l st rest,
  line_buf st = padded l → cp st = length l →
  CR_CHAR ∉ s →
  (∀ k, length (fold_left edit_step (take k s) l) ≤ LINE_BUF_SIZE - 1) →
  ∃ st', read_input (s ++ CR_CHAR :: rest) st = (1%Z, rest, st') ∧
         line_buf st' = padded (fold_left edit_step s l) ∧
         cp st' = length (fold_left edit_step s l).
Proof.
  induction s as [|c s IH]; intros l st rest Hbuf Hcp Hcr Hfit.
  - simpl. eexists. split; [reflexivity|]. done.
  - apply not_elem_of_cons in Hcr as [Hc Hcr].
    destruct (read_input_body_edit c l st Hbuf Hcp (not_eq_sym Hc) (Hfit 1))
      as (st1 & Hbody & Hbuf1 & Hcp1).
    destruct (IH (edit_step l c) st1 rest Hbuf1 Hcp1 Hcr
                 (λ k, Hfit (S k))) as (st' & Hrd & Hres).
    exists st'. split; [|done].
    change ((c :: s) ++ CR_CHAR :: rest) with (c :: (s ++ CR_CHAR :: rest)).
    cbn [read_input]. rewrite Hbody. exact Hrd.
Qed.

(** Bytes that arrive while [read_input] runs and bytes that arrive
    between two calls are edited alike: as long as no carriage return is
    read, the call returns 0 and the next call goes on where it stopped. *)
Lemma read_input_chunks s1 : ∀ s2 st,
  CR_CHAR ∉ s1 →
  fst (read_input s1 st) = (0%Z, []) ∧
  read_input (s1 ++ s2) st = read_input s2 (snd (read_input s1 st)).
Proof.
  induction s1 as [|c s1 IH]; intros s2 st Hcr; [done|].
  apply not_elem_of_cons in Hcr as [Hc Hcr].
  change ((c :: s1) ++ s2) with (c :: (s1 ++ s2)). cbn [read_input].
  assert (Hb : fst (read_input_body c st) = false).
  { unfold read_input_body.
    destruct (LF_CHAR =? c)%Z; [done|].
    destruct (Z.eqb_spec CR_CHAR c); [done|].
    destruct (BKSP_CHAR =? c)%Z; [by destruct (0 <? cp st)|].
    by destruct (cp st <? LINE_BUF_SIZE - 1). }
  destruct (read_input_body c st) as [ret st1]. simpl in Hb. subst ret.
  by apply IH.
Qed.

(** C3. Starting from a cleared line buffer, for every byte sequence [s]
    without a carriage return that never overflows the line (no prefix
    edits to more than LINE_BUF_SIZE - 1 characters), feeding [s] followed
    by a carriage return makes [read_input] return 1 with the buffer
    holding exactly the edited line (line feeds dropped, backspaces
    resolved, the rest in lower case), which fits in LINE_BUF_SIZE - 1
    bytes, all bytes behind it zero, the cursor at its end and a NUL at the
    cursor. *)
Theorem read_input_complete_line (s rest : list Z) (st : state) :
  line_buf st = memset0 LINE_BUF_SIZE → cp st = 0 →
  CR_CHAR ∉ s →
  (∀ k, length (edited (take k s)) ≤ LINE_BUF_SIZE - 1) →
  ∃ st', read_input (s ++ CR_CHAR :: rest) st = (1%Z, rest, st') ∧
         line_buf st' = padded (edited s) ∧
         take (LINE_BUF_SIZE - 1) (edited s) = edited s ∧
         take (cp st') (line_buf st') = edited s ∧
         cp st' = length (edited s) ∧
         line_buf st' !! cp st' = Some 0%Z.
Proof.
  intros Hbuf Hcp Hcr Hfit.
  destruct (read_input_edits s [] st rest Hbuf Hcp Hcr Hfit)
    as (st' & Hrd & Hbuf' & Hcp').
  fold (edited s) in Hbuf', Hcp'.
  assert (Hlen : length (edited s) ≤ LINE_BUF_SIZE - 1).
  { specialize (Hfit (length s)). by rewrite firstn_all in Hfit. }
  exists st'. split; [done|]. split; [done|].
  split; [by apply take_ge|].
  rewrite Hbuf', Hcp'. unfold padded. split; [by rewrite take_app_length|].
  split; [done|].
  rewrite lookup_app_r by lia. rewrite Nat.sub_diag.
  apply lookup_replicate_2. unfold LINE_BUF_SIZE in *. lia.
Qed.

(** A line of at most LINE_BUF_SIZE - 1 bytes never overflows. *)
Lemma edited_length s l :
  length (fold_left edit_step s l) ≤ length l + length s.
Proof.
  revert l. induction s as [|c s IH]; intros l; simpl; [lia|].
  specialize (IH (edit_step l c)). unfold edit_step in *.
  destruct (c =? LF_CHAR)%Z; [lia|].
  destruct (c =? BKSP_CHAR)%Z.
  - destruct l as [|x l _] using rev_ind; [simpl in *; lia|].
    rewrite removelast_last in *. rewrite length_app. simpl. lia.
  - rewrite length_app in IH. simpl in IH. lia.
Qed.

(** C4. With LINE_BUF_SIZE - 1 characters in the line, one more byte that
    is not CR, LF or backspace overflows once: [read_input] returns 0 (the
    line is not complete), the serial output gains exactly bell, CR, LF,
    the prompt and the echo of the byte, and the buffer is all zero except
    for its first byte, which is the byte just read (in lower case, as
    every stored byte); the cursor stands behind it. *)
Theorem read_input_overflow (c : Z) (st : state) :
  cp st = LINE_BUF_SIZE - 1 →
  c ≠ CR_CHAR → c ≠ LF_CHAR → c ≠ BKSP_CHAR →
  read_input [c] st =
    (0%Z, [],
     mkState (error_flag st)
             (tolower c :: replicate (LINE_BUF_SIZE - 1) 0%Z)
             (args st) 1 (strtok_last st)
             (trace st ++ [Serial_write BEL_CHAR; Serial_write CR_CHAR;
                           Serial_write LF_CHAR; Serial_print CLI_PROMPT;
                           Serial_write (tolower c)])).
Proof.
  intros Hcp Hcr Hlf Hbs. simpl. unfold read_input_body.
  rewrite (Z.eqb_sym LF_CHAR c), (Z.eqb_sym CR_CHAR c), (Z.eqb_sym BKSP_CHAR c).
  destruct (Z.eqb_spec c LF_CHAR); [done|].
  destruct (Z.eqb_spec c CR_CHAR); [done|].
  destruct (Z.eqb_spec c BKSP_CHAR); [done|].
  rewrite Hcp. simpl. unfold send_prompt, emit. simpl.
  by rewrite <- !app_assoc.
Qed.

(** ** Tokens that do not fit *)

(** C7. When the token that a call of [get_token] comes upon has
    ARG_BUF_SIZE or more bytes, the call leaves by the too-long exit: it
    prints the notice, raises the error flag and leaves the token buffer
    empty (its first byte is NUL).  When that token is the command name,
    i.e. the call is the one [parse_cmd] makes on a line [read_input] has
    just completed, the cycle of [PinCLI] is the cycle without [execute]:
    whatever the environment, the state after it is the cleared state with
    the notice and the prompt as the only output. *)
Theorem too_long_token_aborts (instr : option nat) (st : state) (p : nat)
    (t : list Z) (ts : list (list Z)) :
  scan_start instr st = Some p →
  tokens_from (line_buf st) p = t :: ts →
  ARG_BUF_SIZE ≤ length t →
  (fst (get_token instr st) = TooLong ∧
   trace (snd (get_token instr st)) = trace st ++ [too_long_notice] ∧
   error_flag (snd (get_token instr st)) = true ∧
   byte_at (args (snd (get_token instr st))) 0 = 0%Z ∧
   cstr (args (snd (get_token instr st))) = []) ∧
  (∀ e rx st0 rx',
     instr = Some 0 → read_input rx st0 = (1%Z, rx', st) →
     PinCLI e rx st0 = (rx', end_of_cycle (parse_cmd st)) ∧
     trace (snd (PinCLI e rx st0)) =
       trace st ++ [too_long_notice; Serial_print CLI_PROMPT]).
Proof.
  intros Hp Ht Hlen.
  destruct (get_token_spec instr st p Hp) as (q & buf' & _ & _ & Hg).
  rewrite Ht in Hg.
  assert (Hlt : (length t <? ARG_BUF_SIZE) = false) by (by apply Nat.ltb_ge).
  rewrite Hlt in Hg.
  assert (Hhead : ∀ a : list Z, byte_at (<[0 := 0%Z]> a) 0 = 0%Z)
    by (by intros [|? ?]).
  split.
  - rewrite Hg. simpl. by rewrite Hhead, cstr_clear_head.
  - intros e rx st0 rx' -> Hrd. unfold PinCLI. rewrite Hrd.
    change (0 <? 1)%Z with true. cbv iota beta.
    unfold parse_cmd. rewrite Hg. simpl. split; [done|].
    by rewrite <- app_assoc.
Qed.

(** ** Dispatch *)

Lemma cstr_nonzero s : Forall nonzero (cstr s).
Proof.
  induction s as [|c s IH]; simpl; [constructor|].
  destruct (Z.eqb_spec c 0); by constructor.
Qed.

Lemma strcmp_zero a : ∀ b,
  Forall nonzero a → Forall nonzero b → strcmp a b = 0%Z → a = b.
Proof.
  unfold nonzero.
  induction a as [|x a IH]; intros [|y b] Ha Hb H; simpl in H.
  - done.
  - apply Forall_cons in Hb as [Hy _]. lia.
  - apply Forall_cons in Ha as [Hx _]. lia.
  - apply Forall_cons in Ha as [Hx Ha]. apply Forall_cons in Hb as [Hy Hb].
    destruct (Z.eqb_spec x y) as [->|Hne]; [|lia]. f_equal. by apply IH.
Qed.

Lemma strcmp_refl a : strcmp a a = 0%Z.
Proof. induction a as [|x a IH]; simpl; [done|]. by rewrite Z.eqb_refl. Qed.

Lemma bytes_of_nonzero name :
  name ∈ commands_str ++ pmode_args ++ spistart_arg1 ++ spistart_arg2 →
  Forall nonzero (bytes_of name).
Proof.
  intros H. unfold nonzero.
  repeat (apply elem_of_cons in H as [->|H];
          [vm_compute; repeat constructor; lia|]).
  by apply elem_of_nil in H.
Qed.

Lemma args_is_true st s : cstr (args st) = s → args_is st s = true.
Proof. intros <-. unfold args_is. by rewrite strcmp_refl. Qed.

Lemma args_is_false st s :
  Forall nonzero s → cstr (args st) ≠ s → args_is st s = false.
Proof.
  intros Hs Hne. unfold args_is. apply Z.eqb_neq. intros H.
  apply Hne. apply strcmp_zero; [apply cstr_nonzero | done | done].
Qed.

Lemma cstr_head a c r : cstr a = c :: r → byte_at a 0 ≠ 0%Z.
Proof.
  destruct a as [|x a]; simpl; [done|]. unfold byte_at. simpl.
  by destruct (Z.eqb_spec x 0).
Qed.

(** C8. [execute] on the first token, as [args] holds it: an empty token
    gives the empty-command notice and status 0; a token equal, byte for
    byte, to the name at index [i] of the command table gives exactly what
    the handler at index [i] does and returns; a token equal to none of the
    names gives the invalid-command notice, which points to [help], and
    status 0. *)
Theorem execute_dispatch (e : env) (st : state) :
  (byte_at (args st) 0 = 0%Z →
   execute e st = (Some 0%Z, emit [empty_command_notice] st)) ∧
  (∀ i name h,
     commands_str !! i = Some name → commands_func !! i = Some h →
     cstr (args st) = bytes_of name →
     execute e st = h e st) ∧
  (byte_at (args st) 0 ≠ 0%Z →
   (∀ name, name ∈ commands_str → cstr (args st) ≠ bytes_of name) →
   execute e st = (Some 0%Z, emit [invalid_command_notice] st)).
Proof.
  split; [|split].
  - intros H0. unfold execute. by rewrite H0.
  - intros i name h Hname Hh Hc. unfold execute.
    assert (Hne : byte_at (args st) 0 ≠ 0%Z).
    { assert (Hin : name ∈ commands_str) by (by eapply list_elem_of_lookup_2).
      destruct (bytes_of name) as [|c r] eqn:Hb.
      - exfalso. revert Hb. clear -Hin.
        repeat (apply elem_of_cons in Hin as [->|Hin]; [done|]).
        by apply elem_of_nil in Hin.
      - by eapply cstr_head. }
    apply Z.eqb_neq in Hne. rewrite Hne.
    unfold num_commands. simpl length. cbn [execute_from].
    unfold args_is. rewrite Hc.
    do 9 (destruct i as [|i];
          [injection Hname as <-; injection Hh as <-; reflexivity|]).
    done.
  - intros Hne Hnone. unfold execute.
    apply Z.eqb_neq in Hne. rewrite Hne.
    assert (Hf : ∀ i name, commands_str !! i = Some name →
                           args_is st (str_at commands_str i) = false).
    { intros i name Hi. unfold str_at. rewrite Hi. simpl.
      assert (Hin : name ∈ commands_str) by (by eapply list_elem_of_lookup_2).
      apply args_is_false; [|by apply Hnone].
      apply bytes_of_nonzero. apply elem_of_app. by left. }
    unfold num_commands. simpl length. cbn [execute_from].
    rewrite (Hf 0 _ eq_refl), (Hf 1 _ eq_refl), (Hf 2 _ eq_refl),
      (Hf 3 _ eq_refl), (Hf 4 _ eq_refl), (Hf 5 _ eq_refl),
      (Hf 6 _ eq_refl), (Hf 7 _ eq_refl), (Hf 8 _ eq_refl).
    reflexivity.
Qed.

(** ** Handlers and their arguments *)

Lemma get_token_next st :
  let st' := snd (get_token None st) in
  cstr (args st') = token_text (head (pending st)) ∧
  trace st' = trace st ++ token_notice (head (pending st)) ∧
  pending st' = tail (pending st) ∧
  error_flag st' = error_flag st || too_long (head (pending st)).
Proof.
  unfold pending, token_text, token_notice, too_long.
  destruct (strtok_last st) as [p|] eqn:Hlast.
  - destruct (get_token_spec None st p Hlast) as (q & buf' & Hq & _ & Hg).
    rewrite Hg. destruct (tokens_from (line_buf st) p) as [|t ts] eqn:Ht.
    + simpl. rewrite cstr_clear_head, app_nil_r.
      repeat split; try done. by destruct (error_flag st).
    + change (head (t :: ts)) with (Some t). cbv beta iota.
      destruct (length t <? ARG_BUF_SIZE) eqn:Hlen; simpl.
      * rewrite cstr_strcpy, app_nil_r, (tokens_from_cstr _ _ _ _ Ht).
        repeat split; try done. by destruct (error_flag st).
      * rewrite cstr_clear_head.
        repeat split; try done. by destruct (error_flag st).
  - unfold get_token, strtok. simpl. rewrite Hlast. simpl. rewrite Hlast.
    rewrite cstr_clear_head, app_nil_r.
    repeat split; try done. by destruct (error_flag st).
Qed.

Lemma head_tail_lookup (l : list (list Z)) : head (tail l) = l !! 1.
Proof. by destruct l as [|? [|? ?]]. Qed.

Lemma head_lookup0 (l : list (list Z)) : head l = l !! 0.
Proof. by destruct l. Qed.

Lemma token_text_is t name :
  name ∈ commands_str ++ pmode_args ++ spistart_arg1 ++ spistart_arg2 →
  bool_decide (token_text t = bytes_of name) =
  bool_decide (t = Some (bytes_of name)).
Proof.
  intros Hin. destruct t as [w|]; simpl.
  - unfold token_text, too_long.
    destruct (length w <? ARG_BUF_SIZE) eqn:Hlen; simpl.
    + apply bool_decide_ext. split; [by intros -> | by intros [= ->]].
    + apply Nat.ltb_ge in Hlen.
      rewrite !bool_decide_eq_false_2; [done| |].
      * intros [= ->]. revert Hlen. clear -Hin.
        repeat (apply elem_of_cons in Hin as [->|Hin];
                [vm_compute; lia|]).
        by apply elem_of_nil in Hin.
      * revert Hin. clear.
        intros Hin.
        repeat (apply elem_of_cons in Hin as [->|Hin]; [by vm_compute|]).
        by apply elem_of_nil in Hin.
  - rewrite !bool_decide_eq_false_2; [done|].
    revert Hin. clear.
    intros Hin.
        repeat (apply elem_of_cons in Hin as [->|Hin]; [by vm_compute|]).
    by apply elem_of_nil in Hin.
Qed.

Lemma args_is_decide st name :
  name ∈ commands_str ++ pmode_args ++ spistart_arg1 ++ spistart_arg2 →
  args_is st (bytes_of name) = bool_decide (cstr (args st) = bytes_of name).
Proof.
  intros Hin. destruct (decide (cstr (args st) = bytes_of name)) as [H|H].
  - rewrite bool_decide_eq_true_2 by done. by apply args_is_true.
  - rewrite bool_decide_eq_false_2 by done.
    apply args_is_false; [by apply bytes_of_nonzero | done].
Qed.

Lemma trace_emit evs st : trace (emit evs st) = trace st ++ evs.
Proof. reflexivity. Qed.

Ltac in_tables := vm_compute; repeat constructor.

Lemma spistart_order_rule st t :
  cstr (args st) = token_text t →
  (if args_is st (str_at spistart_arg1 0) then LSBFIRST
   else if args_is st (str_at spistart_arg1 1) then MSBFIRST
   else SPI_ORDER) = resolve_order t.
Proof.
  intros Hc. unfold resolve_order.
  change (str_at spistart_arg1 0) with (bytes_of "lsbfirst").
  change (str_at spistart_arg1 1) with (bytes_of "msbfirst").
  rewrite !args_is_decide, Hc, !token_text_is;
    [done|..]; in_tables.
Qed.

Lemma spistart_mode_rule st t :
  cstr (args st) = token_text t →
  (if args_is st (str_at spistart_arg2 0) then SPI_MODE0
   else if args_is st (str_at spistart_arg2 1) then SPI_MODE1
   else if args_is st (str_at spistart_arg2 2) then SPI_MODE2
   else if args_is st (str_at spistart_arg2 3) then SPI_MODE3
   else SPI_MODE) = resolve_mode t.
Proof.
  intros Hc. unfold resolve_mode.
  change (str_at spistart_arg2 0) with (bytes_of "mode0").
  change (str_at spistart_arg2 1) with (bytes_of "mode1").
  change (str_at spistart_arg2 2) with (bytes_of "mode2").
  change (str_at spistart_arg2 3) with (bytes_of "mode3").
  rewrite !args_is_decide, Hc, !token_text_is;
    [done|..]; in_tables.
Qed.

Section Handlers.

Variable e : env.

(** C9, as the code has it.  [cmd_spistart] resolves the bit order from the
    first token ahead and the mode from the second, an absent or
    unrecognised token giving the compiled-in default (MSBFIRST, SPI_MODE0);
    it then makes the slave-select pin an output, starts the bus, opens the
    transaction with SPI_SPEED and the resolved order and mode, and drives
    slave-select low; it returns 0.  The handler prints nothing of its own,
    but the tokenizer prints its too-long notice for each of the two tokens
    that has ARG_BUF_SIZE or more bytes; such a token counts as
    unrecognised. *)
Theorem cmd_spistart_effect (st : state) :
  fst (cmd_spistart e st) = Some 0%Z ∧
  trace (snd (cmd_spistart e st)) =
    trace st ++ token_notice (pending st !! 0)
             ++ token_notice (pending st !! 1)
             ++ [Ev_pinMode (SPI_SSPIN e) OUTPUT;
                 SPI_begin;
                 SPI_beginTransaction SPI_SPEED
                   (resolve_order (pending st !! 0))
                   (resolve_mode (pending st !! 1));
                 Ev_digitalWrite (SPI_SSPIN e) LOW].
Proof.
  split; [reflexivity|].
  unfold cmd_spistart.
  destruct (get_token_next st) as (Hc1 & Ht1 & Hp1 & _).
  set (st1 := snd (get_token None st)) in *.
  destruct (get_token_next st1) as (Hc2 & Ht2 & _ & _).
  set (st2 := snd (get_token None st1)) in *.
  rewrite Hp1, head_tail_lookup in Hc2, Ht2. rewrite head_lookup0 in Hc1, Ht1.
  rewrite (spistart_order_rule st1 _ Hc1), (spistart_mode_rule st2 _ Hc2).
  cbn [snd]. rewrite !trace_emit, Ht2, Ht1.
  by rewrite <- !app_assoc.
Qed.

(** C9 as stated fails: [spistart] with an order token of 16 characters
    does produce error output, the tokenizer's notice, before it opens the
    transaction with the default order. *)
Lemma cmd_spistart_prints_notice :
  let st := parse_cmd (typed "spistart aaaaaaaaaaaaaaaa mode1") in
  trace (snd (cmd_spistart world0 st)) =
    trace st ++ [Serial_println "Token too long.";
                 Ev_pinMode 10 OUTPUT; SPI_begin;
                 SPI_beginTransaction 1000000 MSBFIRST SPI_MODE1;
                 Ev_digitalWrite 10 LOW].
Proof. vm_compute. reflexivity. Qed.

(** What the handlers with integer arguments do, in terms of the tokens
    ahead. *)
Lemma cmd_delay_effect st :
  fst (cmd_delay e st) = Some 0%Z ∧
  trace (snd (cmd_delay e st)) =
    trace st ++ token_notice (pending st !! 0)
             ++ [Ev_delay (to_ulong (atoi (token_text (pending st !! 0))))].
Proof.
  split; [reflexivity|]. unfold cmd_delay.
  destruct (get_token_next st) as (Hc & Ht & _ & _).
  rewrite head_lookup0 in Hc, Ht. cbn [snd].
  by rewrite trace_emit, Ht, Hc, <- app_assoc.
Qed.

Lemma cmd_spirw_effect st :
  let v := wrap8 (atoi (token_text (pending st !! 0))) in
  fst (cmd_spirw e st) = Some (wrap8 (SPI_transfer_rx e v)) ∧
  trace (snd (cmd_spirw e st)) =
    trace st ++ token_notice (pending st !! 0)
             ++ [SPI_transfer v;
                 Serial_println_int (wrap8 (SPI_transfer_rx e v))].
Proof.
  unfold cmd_spirw.
  destruct (get_token_next st) as (Hc & Ht & _ & _).
  rewrite head_lookup0 in Hc, Ht. cbn [fst snd].
  by rewrite !trace_emit, Ht, Hc, <- !app_assoc.
Qed.

Lemma cmd_spirw16_effect st :
  let v := to_uint16 (atoi (token_text (pending st !! 0))) in
  fst (cmd_spirw16 e st) = Some (wrap16 (SPI_transfer16_rx e v)) ∧
  trace (snd (cmd_spirw16 e st)) =
    trace st ++ token_notice (pending st !! 0)
             ++ [SPI_transfer16 v;
                 Serial_println_int (wrap16 (SPI_transfer16_rx e v))].
Proof.
  unfold cmd_spirw16.
  destruct (get_token_next st) as (Hc & Ht & _ & _).
  rewrite head_lookup0 in Hc, Ht. cbn [fst snd].
  by rewrite !trace_emit, Ht, Hc, <- !app_assoc.
Qed.

Lemma cmd_pw_effect st :
  fst (cmd_pw e st) = Some 0%Z ∧
  trace (snd (cmd_pw e st)) =
    trace st ++ token_notice (pending st !! 0)
             ++ token_notice (pending st !! 1)
             ++ pw_events (to_uint8 (atoi (token_text (pending st !! 0))))
                          (atoi (token_text (pending st !! 1))).
Proof.
  split; [reflexivity|]. unfold cmd_pw.
  destruct (get_token_next st) as (Hc1 & Ht1 & Hp1 & _).
  set (st1 := snd (get_token None st)) in *.
  destruct (get_token_next st1) as (Hc2 & Ht2 & _ & _).
  set (st2 := snd (get_token None st1)) in *.
  rewrite Hp1, head_tail_lookup in Hc2, Ht2. rewrite head_lookup0 in Hc1, Ht1.
  rewrite Hc1, Hc2. unfold pw_events. cbn [snd].
  rewrite (Z.eqb_sym 0), (Z.eqb_sym 1).
  destruct (_ =? 0)%Z; [|destruct (_ =? 1)%Z];
    by rewrite trace_emit, Ht2, Ht1, <- !app_assoc.
Qed.

Lemma cmd_pmode_effect st :
  fst (cmd_pmode e st) = Some 0%Z ∧
  trace (snd (cmd_pmode e st)) =
    trace st ++ token_notice (pending st !! 0)
             ++ token_notice (pending st !! 1)
             ++ pmode_events (to_uint8 (atoi (token_text (pending st !! 0))))
                             (token_text (pending st !! 1)).
Proof.
  split; [reflexivity|]. unfold cmd_pmode.
  destruct (get_token_next st) as (Hc1 & Ht1 & Hp1 & _).
  set (st1 := snd (get_token None st)) in *.
  destruct (get_token_next st1) as (Hc2 & Ht2 & _ & _).
  set (st2 := snd (get_token None st1)) in *.
  rewrite Hp1, head_tail_lookup in Hc2, Ht2. rewrite head_lookup0 in Hc1, Ht1.
  rewrite Hc1. unfold pmode_events. cbn [snd].
  change (str_at pmode_args 0) with (bytes_of "i").
  change (str_at pmode_args 1) with (bytes_of "ip").
  change (str_at pmode_args 2) with (bytes_of "o").
  rewrite !args_is_decide, Hc2 by in_tables.
  repeat case_bool_decide;
    by rewrite ?trace_emit, Ht2, Ht1, <- ?app_assoc, ?app_nil_r.
Qed.


End Handlers.

(** ** The pin number of [pr] *)

(** C1 on the code.  With pin 7 low and the other pins high, the line
    [pr 7] does not read pin 7 and does not print 0: [cmd_pr] gives [atoi]
    the character [args[1]] (here the NUL behind the one-character token)
    instead of the token, so the number comes from the memory at that
    address (no digits there: 0), pin 0 is read, and 1 is printed. *)
Theorem cmd_pr_reads_other_pin :
  digitalRead world_pin7_low 7 = LOW ∧
  cstr (args (snd (get_token None (parse_cmd (typed "pr 7"))))) = bytes_of "7" ∧
  cmd_pr world_pin7_low (parse_cmd (typed "pr 7")) =
    (Some 1%Z,
     emit [Ev_digitalRead 0; Serial_println_int 1]
          (snd (get_token None (parse_cmd (typed "pr 7"))))) ∧
  trace (session world_pin7_low (line "pr 7")) =
    [Serial_print "PinCLI v"; Serial_println "x0.36"; Serial_print "> ";
     Serial_write 112; Serial_write 114; Serial_write 32; Serial_write 55;
     Serial_write 13; Serial_write 10;
     Ev_digitalRead 0; Serial_println_int 1; Serial_print "> "].
Proof.
  split; [reflexivity|]. split; [vm_compute; reflexivity|].
  split; vm_compute; reflexivity.
Qed.

(** ** The theorems at work on concrete lines *)

Lemma short_line_fits s :
  length s ≤ LINE_BUF_SIZE - 1 →
  ∀ k, length (edited (take k s)) ≤ LINE_BUF_SIZE - 1.
Proof.
  intros Hs k. unfold edited.
  pose proof (edited_length (take k s) []) as H.
  rewrite length_take in H. simpl in H. lia.
Qed.

Lemma read_input_complete_line_witness :
  ∃ st', read_input ((bytes_of "Px" ++ [BKSP_CHAR; LF_CHAR] ++ bytes_of "R 7")
                     ++ CR_CHAR :: []) (PinCLI_init boot) = (1%Z, [], st') ∧
         line_buf st' = padded (edited (bytes_of "Px" ++ [BKSP_CHAR; LF_CHAR]
                                        ++ bytes_of "R 7")) ∧
         take (LINE_BUF_SIZE - 1)
              (edited (bytes_of "Px" ++ [BKSP_CHAR; LF_CHAR] ++ bytes_of "R 7"))
         = edited (bytes_of "Px" ++ [BKSP_CHAR; LF_CHAR] ++ bytes_of "R 7") ∧
         take (cp st') (line_buf st')
         = edited (bytes_of "Px" ++ [BKSP_CHAR; LF_CHAR] ++ bytes_of "R 7") ∧
         cp st' = length (edited (bytes_of "Px" ++ [BKSP_CHAR; LF_CHAR]
                                  ++ bytes_of "R 7")) ∧
         line_buf st' !! cp st' = Some 0%Z.
Proof.
  apply (read_input_complete_line
           (bytes_of "Px" ++ [BKSP_CHAR; LF_CHAR] ++ bytes_of "R 7") []
           (PinCLI_init boot)).
  - vm_compute. reflexivity.
  - vm_compute. reflexivity.
  - intros H. vm_compute in H.
    repeat (apply elem_of_cons in H as [H|H]; [discriminate H|]).
    by apply elem_of_nil in H.
  - apply short_line_fits. vm_compute. lia.
Defined.

Lemma read_input_overflow_witness :
  cp full_line = LINE_BUF_SIZE - 1 ∧
  read_input [65%Z] full_line =
    (0%Z, [],
     mkState (error_flag full_line)
             (tolower 65 :: replicate (LINE_BUF_SIZE - 1) 0%Z)
             (args full_line) 1 (strtok_last full_line)
             (trace full_line ++
                [Serial_write BEL_CHAR; Serial_write CR_CHAR;
                 Serial_write LF_CHAR; Serial_print CLI_PROMPT;
                 Serial_write (tolower 65)])).
Proof.
  split; [vm_compute; reflexivity|].
  apply (read_input_overflow 65 full_line);
    [vm_compute; reflexivity | unfold CR_CHAR; lia | unfold LF_CHAR; lia
     | unfold BKSP_CHAR; lia].
Defined.

Lemma get_token_sequence_witness :
  tokens (cstr (line_buf (typed "pw 13 1"))) =
    [bytes_of "pw"; bytes_of "13"; bytes_of "1"] ∧
  fst (extract_calls [Some 0; None; None; None] (typed "pw 13 1")) =
    [(Found, bytes_of "pw"); (Found, bytes_of "13"); (Found, bytes_of "1");
     (EndOfLine, [])].
Proof.
  assert (Htoks : tokens (cstr (line_buf (typed "pw 13 1"))) =
                  [bytes_of "pw"; bytes_of "13"; bytes_of "1"])
    by (vm_compute; reflexivity).
  assert (Hfit : Forall fits (tokens (cstr (line_buf (typed "pw 13 1"))))).
  { rewrite Htoks. vm_compute. repeat constructor; lia. }
  split; [exact Htoks|].
  pose proof (get_token_sequence (typed "pw 13 1") Hfit) as H.
  cbv zeta in H. rewrite Htoks in H. exact H.
Defined.

Lemma too_long_token_aborts_witness :
  (fst (get_token (Some 0) (typed (long_word +:+ " 1"))) = TooLong ∧
   trace (snd (get_token (Some 0) (typed (long_word +:+ " 1")))) =
     trace (typed (long_word +:+ " 1")) ++ [too_long_notice] ∧
   error_flag (snd (get_token (Some 0) (typed (long_word +:+ " 1")))) = true ∧
   byte_at (args (snd (get_token (Some 0) (typed (long_word +:+ " 1"))))) 0
     = 0%Z ∧
   cstr (args (snd (get_token (Some 0) (typed (long_word +:+ " 1"))))) = []) ∧
  PinCLI world0 (line (long_word +:+ " 1")) (PinCLI_init boot) =
    ([], end_of_cycle (parse_cmd (typed (long_word +:+ " 1")))) ∧
  trace (snd (PinCLI world0 (line (long_word +:+ " 1")) (PinCLI_init boot))) =
    trace (typed (long_word +:+ " 1"))
      ++ [too_long_notice; Serial_print CLI_PROMPT].
Proof.
  assert (Htoks : tokens_from (line_buf (typed (long_word +:+ " 1"))) 0 =
                  long_token :: [bytes_of "1"]) by (vm_compute; reflexivity).
  assert (Hlen : ARG_BUF_SIZE ≤ length long_token) by (vm_compute; lia).
  assert (Hrd : read_input (line (long_word +:+ " 1")) (PinCLI_init boot) =
                (1%Z, [], typed (long_word +:+ " 1")))
    by (vm_compute; reflexivity).
  destruct (too_long_token_aborts (Some 0) (typed (long_word +:+ " 1")) 0
              long_token [bytes_of "1"] eq_refl Htoks Hlen)
    as [Hcall Hcycle].
  split; [exact Hcall|].
  exact (Hcycle world0 (line (long_word +:+ " 1")) (PinCLI_init boot) []
                eq_refl Hrd).
Defined.

Lemma execute_dispatch_witness :
  execute world0 (parse_cmd (typed "pw 13 1")) =
    cmd_pw world0 (parse_cmd (typed "pw 13 1")) ∧
  execute world0 (parse_cmd (typed "")) =
    (Some 0%Z, emit [empty_command_notice] (parse_cmd (typed ""))) ∧
  execute world0 (parse_cmd (typed "pwx 13 1")) =
    (Some 0%Z, emit [invalid_command_notice] (parse_cmd (typed "pwx 13 1"))).
Proof.
  split; [|split].
  - assert (Hc : cstr (args (parse_cmd (typed "pw 13 1"))) = bytes_of "pw")
      by (vm_compute; reflexivity).
    destruct (execute_dispatch world0 (parse_cmd (typed "pw 13 1")))
      as (_ & Hmatch & _).
    exact (Hmatch 4 "pw"%string cmd_pw eq_refl eq_refl Hc).
  - assert (H0 : byte_at (args (parse_cmd (typed ""))) 0 = 0%Z)
      by (vm_compute; reflexivity).
    destruct (execute_dispatch world0 (parse_cmd (typed "")))
      as (Hempty & _ & _).
    exact (Hempty H0).
  - assert (H0 : byte_at (args (parse_cmd (typed "pwx 13 1"))) 0 ≠ 0%Z)
      by (vm_compute; lia).
    assert (Hno : ∀ name, name ∈ commands_str →
              cstr (args (parse_cmd (typed "pwx 13 1"))) ≠ bytes_of name).
    { intros name Hin.
      repeat (apply elem_of_cons in Hin as [->|Hin];
              [vm_compute; discriminate|]).
      apply elem_of_nil in Hin. destruct Hin. }
    destruct (execute_dispatch world0 (parse_cmd (typed "pwx 13 1")))
      as (_ & _ & Hnone).
    exact (Hnone H0 Hno).
Defined.

(** * Further properties of the sketch *)

(** ** The line editor keeps the line inside its buffer *)

Lemma line_ok_boot : line_ok (PinCLI_init boot).
Proof.
  split; [reflexivity|]. split; [unfold LINE_BUF_SIZE; simpl; lia|].
  intros i _ Hi. simpl. by apply lookup_replicate_2.
Qed.

Lemma read_input_body_line_ok c st :
  line_ok st → line_ok (snd (read_input_body c st)).
Proof.
  intros (Hlen & Hcp & Hz). unfold read_input_body.
  destruct (LF_CHAR =? c)%Z; [done|].
  destruct (CR_CHAR =? c)%Z; [done|].
  destruct (BKSP_CHAR =? c)%Z.
  - destruct (Nat.ltb_spec 0 (cp st)) as [Hpos|]; [|done].
    split; [|split]; simpl.
    + by rewrite length_insert.
    + lia.
    + intros i Hi1 Hi2. destruct (decide (i = pred (cp st))) as [->|Hne].
      * apply list_lookup_insert_eq. lia.
      * rewrite list_lookup_insert_ne by done. apply Hz; lia.
  - destruct (Nat.ltb_spec (cp st) (LINE_BUF_SIZE - 1)) as [Hlt|Hge].
    + split; [|split]; simpl.
      * by rewrite length_insert.
      * lia.
      * intros i Hi1 Hi2. rewrite list_lookup_insert_ne by lia.
        apply Hz; lia.
    + split; [|split];
        cbn [snd line_buf cp emit set_cp set_line_buf send_prompt];
        unfold memset0.
      * by rewrite length_insert, length_replicate.
      * unfold LINE_BUF_SIZE. lia.
      * intros i Hi1 Hi2. rewrite list_lookup_insert_ne by lia.
        by apply lookup_replicate_2.
Qed.

Lemma read_input_line_ok_aux rx st :
  line_ok st → line_ok (snd (read_input rx st)).
Proof.
  revert st. induction rx as [|c rx IH]; intros st Hok; [done|].
  cbn [read_input].
  pose proof (read_input_body_line_ok c st Hok) as Hb.
  destruct (read_input_body c st) as [ret st1]. simpl in Hb.
  destruct ret; [done|]. by apply IH.
Qed.

(** X1. Whatever bytes arrive, [read_input] keeps the line buffer well
    formed: 64 bytes long, the cursor below 64 (so at most 63 characters
    are stored) and every byte from the cursor on NUL; in particular the
    last byte of the buffer is always NUL. *)
Theorem read_input_line_ok (rx : list Z) (st : state) :
  line_ok st →
  line_ok (snd (read_input rx st)) ∧
  line_buf (snd (read_input rx st)) !! (LINE_BUF_SIZE - 1) = Some 0%Z.
Proof.
  intros Hok.
  assert (H : line_ok (snd (read_input rx st)))
    by (by apply read_input_line_ok_aux).
  split; [done|]. destruct H as (_ & Hcp & Hz).
  apply Hz; unfold LINE_BUF_SIZE in *; lia.
Qed.

Lemma read_input_line_ok_witness :
  line_ok (snd (read_input (replicate 200 65%Z ++ [BKSP_CHAR; CR_CHAR])
                           (PinCLI_init boot))) ∧
  line_buf (snd (read_input (replicate 200 65%Z ++ [BKSP_CHAR; CR_CHAR])
                            (PinCLI_init boot))) !! (LINE_BUF_SIZE - 1)
    = Some 0%Z.
Proof.
  apply (read_input_line_ok (replicate 200 65%Z ++ [BKSP_CHAR; CR_CHAR])
                            (PinCLI_init boot)).
  exact line_ok_boot.
Defined.

(** ** What the line editor leaves alone *)

Lemma read_input_body_frame c st :
  args (snd (read_input_body c st)) = args st ∧
  error_flag (snd (read_input_body c st)) = error_flag st ∧
  strtok_last (snd (read_input_body c st)) = strtok_last st ∧
  ∃ evs, trace (snd (read_input_body c st)) = trace st ++ evs ∧
         forallb is_serial evs = true.
Proof.
  unfold read_input_body.
  destruct (LF_CHAR =? c)%Z; [repeat split; exists []; by rewrite app_nil_r|].
  destruct (CR_CHAR =? c)%Z; [repeat split; by eexists|].
  destruct (BKSP_CHAR =? c)%Z.
  - destruct (0 <? cp st); [repeat split; by eexists|].
    repeat split; exists []; by rewrite app_nil_r.
  - destruct (cp st <? LINE_BUF_SIZE - 1); [repeat split; by eexists|].
    repeat split. eexists. split; [|shelve].
    cbn [snd trace emit send_prompt set_cp set_line_buf].
    rewrite <- !app_assoc. reflexivity.
    Unshelve. reflexivity.
Qed.

Lemma read_input_frame_aux rx st :
  args (snd (read_input rx st)) = args st ∧
  error_flag (snd (read_input rx st)) = error_flag st ∧
  strtok_last (snd (read_input rx st)) = strtok_last st.
Proof.
  revert st. induction rx as [|c rx IH]; intros st; [done|].
  cbn [read_input].
  destruct (read_input_body_frame c st) as (Ha & He & Hl & _).
  destruct (read_input_body c st) as [ret st1]. simpl in *.
  destruct ret; [done|].
  destruct (IH st1) as (Ha' & He' & Hl'). by rewrite Ha', He', Hl'.
Qed.

(** X2. [read_input] only edits the line and echoes: whatever it reads, it
    leaves the token buffer, the error flag and the tokenizer's saved
    position as they were, and all it adds to the trace is serial output
    (no pin, bus or delay event). *)
Theorem read_input_frame (rx : list Z) (st : state) :
  args (snd (read_input rx st)) = args st ∧
  error_flag (snd (read_input rx st)) = error_flag st ∧
  strtok_last (snd (read_input rx st)) = strtok_last st ∧
  ∃ evs, trace (snd (read_input rx st)) = trace st ++ evs ∧
         forallb is_serial evs = true.
Proof.
  revert st. induction rx as [|c rx IH]; intros st.
  { repeat split. exists []. by rewrite app_nil_r. }
  cbn [read_input].
  pose proof (read_input_body_frame c st) as Hb.
  destruct (read_input_body c st) as [ret st1]. simpl in Hb.
  destruct ret; [exact Hb|].
  destruct Hb as (Ha & He & Hl & evs1 & Ht & Hs).
  destruct (IH st1) as (Ha' & He' & Hl' & evs2 & Ht' & Hs').
  rewrite Ha', He', Hl', Ht', Ha, He, Hl, Ht.
  repeat split. exists (evs1 ++ evs2). rewrite app_assoc. split; [done|].
  rewrite forallb_app, Hs, Hs'. reflexivity.
Qed.

(** ** Case and line feeds *)

Lemma tolower_idem c : tolower (tolower c) = tolower c.
Proof.
  unfold tolower.
  destruct ((65 <=? c)%Z && (c <=? 90)%Z) eqn:H; [|by rewrite H].
  apply andb_true_iff in H as [H1 H2].
  apply Z.leb_le in H1. apply Z.leb_le in H2.
  replace ((65 <=? c + 32)%Z && (c + 32 <=? 90)%Z) with false; [done|].
  symmetry. apply andb_false_iff. right. apply Z.leb_gt. lia.
Qed.

Lemma tolower_control c k :
  (k < 65)%Z → (k =? tolower c)%Z = (k =? c)%Z.
Proof.
  intros Hk. unfold tolower.
  destruct ((65 <=? c)%Z && (c <=? 90)%Z) eqn:H; [|done].
  apply andb_true_iff in H as [H1 H2].
  apply Z.leb_le in H1. apply Z.leb_le in H2.
  transitivity false; [apply Z.eqb_neq; lia | symmetry; apply Z.eqb_neq; lia].
Qed.

Lemma read_input_body_tolower c st :
  read_input_body (tolower c) st = read_input_body c st.
Proof.
  unfold read_input_body.
  rewrite !tolower_control by (unfold LF_CHAR, CR_CHAR, BKSP_CHAR; lia).
  by rewrite tolower_idem.
Qed.

(** X3. Upper and lower case are the same to the line editor: feeding the
    input with every byte put in lower case gives the same result, the same
    state (line, cursor, echo) and leaves the same bytes unread. *)
Theorem read_input_tolower (rx : list Z) (st : state) :
  read_input (map tolower rx) st =
    (fst (fst (read_input rx st)),
     map tolower (snd (fst (read_input rx st))),
     snd (read_input rx st)).
Proof.
  revert st. induction rx as [|c rx IH]; intros st; [done|].
  cbn [map read_input]. rewrite read_input_body_tolower.
  destruct (read_input_body c st) as [ret st1].
  destruct ret; [done|]. apply IH.
Qed.

(** X4. Line feeds are dropped wherever they stand: the input without its
    line feeds gives the same result and the same state. *)
Theorem read_input_skips_lf (rx : list Z) (st : state) :
  read_input (List.filter not_lf rx) st =
    (fst (fst (read_input rx st)),
     List.filter not_lf (snd (fst (read_input rx st))),
     snd (read_input rx st)).
Proof.
  revert st. induction rx as [|c rx IH]; intros st; [done|].
  cbn [List.filter]. unfold not_lf at 1.
  destruct (Z.eqb_spec c LF_CHAR) as [->|Hne]; cbn [negb].
  - rewrite IH. cbn [read_input]. unfold read_input_body.
    rewrite Z.eqb_refl. reflexivity.
  - cbn [read_input].
    destruct (read_input_body c st) as [ret st1].
    destruct ret; [done|]. apply IH.
Qed.

(** ** Editing *)

(** X5. Typing a character and then backspace undoes itself: for a
    well-formed line with room left, the line buffer and the cursor are
    what they were, and the terminal has seen the character and the
    erase sequence (backspace, space, backspace). *)
Theorem type_then_backspace (c : Z) (st : state) :
  line_ok st → cp st < LINE_BUF_SIZE - 1 → ordinary c →
  read_input [c; BKSP_CHAR] st =
    (0%Z, [],
     mkState (error_flag st) (line_buf st) (args st) (cp st) (strtok_last st)
             (trace st ++ [Serial_write (tolower c); Serial_write BKSP_CHAR;
                           Serial_write SP_CHAR; Serial_write BKSP_CHAR])).
Proof.
  intros (Hlen & _ & Hz) Hcp (Hlf & Hcr & Hbs).
  cbn [read_input]. unfold read_input_body at 1.
  rewrite (Z.eqb_sym LF_CHAR c), (Z.eqb_sym CR_CHAR c), (Z.eqb_sym BKSP_CHAR c).
  destruct (Z.eqb_spec c LF_CHAR); [done|].
  destruct (Z.eqb_spec c CR_CHAR); [done|].
  destruct (Z.eqb_spec c BKSP_CHAR); [done|].
  destruct (Nat.ltb_spec (cp st) (LINE_BUF_SIZE - 1)); [|lia].
  unfold read_input_body. change (LF_CHAR =? BKSP_CHAR)%Z with false.
  change (CR_CHAR =? BKSP_CHAR)%Z with false.
  change (BKSP_CHAR =? BKSP_CHAR)%Z with true.
  cbn [cp emit set_cp set_line_buf line_buf Nat.ltb Nat.leb pred
       error_flag args strtok_last trace].
  rewrite list_insert_insert_eq.
  rewrite (list_insert_id (line_buf st) (cp st) 0%Z)
    by (apply Hz; unfold LINE_BUF_SIZE in *; lia).
  unfold emit, set_line_buf, set_cp. simpl. by rewrite <- app_assoc.
Qed.

Lemma type_then_backspace_witness :
  read_input [65%Z; BKSP_CHAR] (typed "pw") =
    (0%Z, [],
     mkState (error_flag (typed "pw")) (line_buf (typed "pw"))
             (args (typed "pw")) (cp (typed "pw")) (strtok_last (typed "pw"))
             (trace (typed "pw") ++
                [Serial_write (tolower 65); Serial_write BKSP_CHAR;
                 Serial_write SP_CHAR; Serial_write BKSP_CHAR])).
Proof.
  assert (Hok : line_ok (typed "pw")).
  { apply (read_input_line_ok_aux (bytes_of "pw" ++ [CR_CHAR])
                                  (PinCLI_init boot) line_ok_boot). }
  assert (Hcp : cp (typed "pw") < LINE_BUF_SIZE - 1) by (vm_compute; lia).
  assert (Hc : ordinary 65).
  { unfold ordinary, LF_CHAR, CR_CHAR, BKSP_CHAR. lia. }
  exact (type_then_backspace 65 (typed "pw") Hok Hcp Hc).
Defined.

(** Ordinary bytes that fit are appended in lower case and echoed. *)
Lemma read_input_ordinary s : ∀ l st,
  line_buf st = padded l → cp st = length l →
  Forall ordinary s →
  length l + length s ≤ LINE_BUF_SIZE - 1 →
  read_input s st =
    (0%Z, [],
     mkState (error_flag st) (padded (l ++ map tolower s)) (args st)
             (length l + length s) (strtok_last st)
             (trace st ++ map Serial_write (map tolower s))).
Proof.
  induction s as [|c s IH]; intros l st Hbuf Hcp Hord Hfit.
  - simpl. rewrite !app_nil_r, Nat.add_0_r, <- Hbuf, <- Hcp. by destruct st.
  - apply Forall_cons in Hord as [(Hlf & Hcr & Hbs) Hord].
    simpl length in Hfit. cbn [read_input]. unfold read_input_body.
    rewrite (Z.eqb_sym LF_CHAR c), (Z.eqb_sym CR_CHAR c),
      (Z.eqb_sym BKSP_CHAR c).
    destruct (Z.eqb_spec c LF_CHAR); [done|].
    destruct (Z.eqb_spec c CR_CHAR); [done|].
    destruct (Z.eqb_spec c BKSP_CHAR); [done|].
    destruct (Nat.ltb_spec (cp st) (LINE_BUF_SIZE - 1));
      [|unfold LINE_BUF_SIZE in *; lia].
    rewrite (IH (l ++ [tolower c])).
    + cbn [error_flag args strtok_last trace emit set_cp set_line_buf].
      rewrite length_app. simpl length. cbn [map].
      rewrite <- !app_assoc. simpl app.
      by replace (length l + 1 + length s) with (length l + S (length s))
        by lia.
    + cbn [line_buf emit set_cp set_line_buf]. rewrite Hbuf, Hcp.
      apply padded_store. unfold LINE_BUF_SIZE in *. lia.
    + cbn [cp emit set_cp set_line_buf]. rewrite length_app. simpl. lia.
    + done.
    + rewrite length_app. simpl. unfold LINE_BUF_SIZE in *. lia.
Qed.

Lemma ordinary_no_cr s : Forall ordinary s → CR_CHAR ∉ s.
Proof.
  intros H Hin. rewrite Forall_forall in H.
  by destruct (H _ Hin) as (_ & Hcr & _).
Qed.

(** X6. Overflow keeps what was typed last.  From an empty line,
    LINE_BUF_SIZE - 1 ordinary bytes followed by 1 to LINE_BUF_SIZE - 1 more
    overflow exactly once: the terminal sees the first run echoed, then
    bell, CR, LF and the prompt, then the second run echoed; the line
    holds exactly the second run (in lower case) and [read_input] has not
    reported a line. *)
Theorem overflow_keeps_tail (s1 s2 : list Z) (st : state) :
  line_buf st = memset0 LINE_BUF_SIZE → cp st = 0 →
  Forall ordinary s1 → Forall ordinary s2 →
  length s1 = LINE_BUF_SIZE - 1 →
  1 ≤ length s2 → length s2 ≤ LINE_BUF_SIZE - 1 →
  read_input (s1 ++ s2) st =
    (0%Z, [],
     mkState (error_flag st) (padded (map tolower s2)) (args st)
             (length s2) (strtok_last st)
             (trace st ++ map Serial_write (map tolower s1)
                ++ [Serial_write BEL_CHAR; Serial_write CR_CHAR;
                    Serial_write LF_CHAR; Serial_print CLI_PROMPT]
                ++ map Serial_write (map tolower s2))).
Proof.
  intros Hbuf Hcp Hs1 Hs2 Hl1 Hl2 Hl2'.
  destruct (read_input_chunks s1 s2 st (ordinary_no_cr s1 Hs1)) as [_ ->].
  rewrite (read_input_ordinary s1 [] st Hbuf Hcp Hs1) by (unfold LINE_BUF_SIZE in *; simpl; lia).
  cbn [snd]. destruct s2 as [|c s2]; [simpl in Hl2; lia|].
  apply Forall_cons in Hs2 as [(Hlf & Hcr & Hbs) Hs2].
  cbn [read_input]. unfold read_input_body.
  rewrite (Z.eqb_sym LF_CHAR c), (Z.eqb_sym CR_CHAR c), (Z.eqb_sym BKSP_CHAR c).
  destruct (Z.eqb_spec c LF_CHAR); [done|].
  destruct (Z.eqb_spec c CR_CHAR); [done|].
  destruct (Z.eqb_spec c BKSP_CHAR); [done|].
  cbn [cp]. simpl length at 1.
  destruct (Nat.ltb_spec (0 + length s1) (LINE_BUF_SIZE - 1)); [lia|].
  simpl length in Hl2'.
  rewrite (read_input_ordinary s2 [tolower c]);
    [| reflexivity | reflexivity | done
     | unfold LINE_BUF_SIZE in *; simpl; lia].
  cbn [error_flag args strtok_last trace emit set_cp set_line_buf
       send_prompt].
  simpl length. cbn [map app]. rewrite <- !app_assoc. reflexivity.
Qed.

Lemma overflow_keeps_tail_witness :
  read_input (replicate 63 65%Z ++ bytes_of "PW 13") (PinCLI_init boot) =
    (0%Z, [],
     mkState (error_flag (PinCLI_init boot))
             (padded (map tolower (bytes_of "PW 13")))
             (args (PinCLI_init boot))
             (length (bytes_of "PW 13")) (strtok_last (PinCLI_init boot))
             (trace (PinCLI_init boot)
                ++ map Serial_write (map tolower (replicate 63 65%Z))
                ++ [Serial_write BEL_CHAR; Serial_write CR_CHAR;
                    Serial_write LF_CHAR; Serial_print CLI_PROMPT]
                ++ map Serial_write (map tolower (bytes_of "PW 13")))).
Proof.
  apply (overflow_keeps_tail (replicate 63 65%Z) (bytes_of "PW 13")
                             (PinCLI_init boot)).
  - vm_compute. reflexivity.
  - vm_compute. reflexivity.
  - apply Forall_replicate.
    unfold ordinary, LF_CHAR, CR_CHAR, BKSP_CHAR. lia.
  - vm_compute.
    repeat constructor; unfold LF_CHAR, CR_CHAR, BKSP_CHAR; lia.
  - vm_compute. reflexivity.
  - vm_compute. lia.
  - vm_compute. lia.
Defined.

(** ** What the line can hold *)

Lemma storable_tolower c : ordinary c → storable (tolower c).
Proof.
  unfold ordinary, storable, tolower, LF_CHAR, CR_CHAR, BKSP_CHAR.
  intros (Hlf & Hcr & Hbs).
  destruct ((65 <=? c)%Z && (c <=? 90)%Z) eqn:H.
  - apply andb_true_iff in H as [H1 H2].
    apply Z.leb_le in H1. apply Z.leb_le in H2. lia.
  - apply andb_false_iff in H as [H|H]; apply Z.leb_gt in H; lia.
Qed.

Lemma storable_nul : storable 0.
Proof. unfold storable, LF_CHAR, CR_CHAR, BKSP_CHAR. lia. Qed.

Lemma read_input_body_storable c st :
  Forall storable (line_buf st) →
  Forall storable (line_buf (snd (read_input_body c st))).
Proof.
  intros H. unfold read_input_body.
  rewrite (Z.eqb_sym LF_CHAR c), (Z.eqb_sym CR_CHAR c), (Z.eqb_sym BKSP_CHAR c).
  destruct (Z.eqb_spec c LF_CHAR); [done|].
  destruct (Z.eqb_spec c CR_CHAR); [done|].
  destruct (Z.eqb_spec c BKSP_CHAR).
  - destruct (0 <? cp st); [|done].
    cbn [snd line_buf emit set_cp set_line_buf].
    apply Forall_insert; [done | apply storable_nul].
  - assert (Hc : storable (tolower c)) by (by apply storable_tolower).
    destruct (cp st <? LINE_BUF_SIZE - 1);
      cbn [snd line_buf emit set_cp set_line_buf send_prompt].
    + by apply Forall_insert.
    + apply Forall_insert; [|done]. apply Forall_replicate, storable_nul.
Qed.

(** X7. The line never holds an upper-case letter, a carriage return, a
    line feed or a backspace: if that is so before [read_input], it is so
    after it, whatever was read.  (This is why comparing the tokens with
    the lower-case command names is enough.) *)
Theorem read_input_stores_lower_case (rx : list Z) (st : state) :
  Forall storable (line_buf st) →
  Forall storable (line_buf (snd (read_input rx st))).
Proof.
  revert st. induction rx as [|c rx IH]; intros st H; [done|].
  cbn [read_input].
  pose proof (read_input_body_storable c st H) as Hb.
  destruct (read_input_body c st) as [ret st1]. simpl in Hb.
  destruct ret; [done|]. by apply IH.
Qed.

Lemma read_input_stores_lower_case_witness :
  Forall storable (line_buf (snd (read_input (bytes_of "HeLLo" ++ [BKSP_CHAR])
                                             (PinCLI_init boot)))).
Proof.
  apply (read_input_stores_lower_case (bytes_of "HeLLo" ++ [BKSP_CHAR])
                                      (PinCLI_init boot)).
  apply Forall_replicate, storable_nul.
Defined.

(** ** The tokenizer stays inside the buffers *)

Lemma strspn_sp_bound s : ∀ k, s !! k = Some 0%Z → strspn_sp s ≤ k.
Proof.
  induction s as [|c s IH]; intros k Hk; simpl; [lia|].
  destruct (Z.eqb_spec c SP_CHAR) as [->|]; [|lia].
  destruct k as [|k]; [done|]. specialize (IH k Hk). lia.
Qed.

Lemma strcspn_sp_bound s : ∀ k, s !! k = Some 0%Z → strcspn_sp s ≤ k.
Proof.
  induction s as [|c s IH]; intros k Hk; simpl; [lia|].
  destruct (Z.eqb_spec c 0) as [->|Hc]; simpl; [lia|].
  destruct (Z.eqb_spec c SP_CHAR); simpl; [lia|].
  destruct k as [|k]; [simpl in Hk; congruence|].
  specialize (IH k Hk). lia.
Qed.

(** What one call of [strtok] keeps, for a line that ends in NUL at its
    last place and a scan that starts inside the line. *)
Lemma strtok_bounds s st n :
  length (line_buf st) = S n →
  line_buf st !! n = Some 0%Z →
  (∀ p, scan_start s st = Some p → p ≤ n) →
  let st' := snd (strtok s st) in
  length (line_buf st') = S n ∧
  line_buf st' !! n = Some 0%Z ∧
  (∀ q, strtok_last st' = Some q → q ≤ n) ∧
  (∀ i, line_buf st !! i = Some 0%Z → line_buf st' !! i = Some 0%Z) ∧
  cp st' = cp st ∧ args st' = args st.
Proof.
  intros Hlen Hnul Hstart. unfold strtok. fold (scan_start s st).
  destruct (scan_start s st) as [p|] eqn:Hp.
  2:{ simpl. repeat split; try done. intros q Hq. apply Hstart.
      unfold scan_start in Hp. destruct s; [done|]. congruence. }
  specialize (Hstart p eq_refl).
  set (buf := line_buf st) in *.
  assert (Hk : strspn_sp (drop p buf) ≤ n - p).
  { apply strspn_sp_bound. rewrite lookup_drop.
    by replace (p + (n - p)) with n by lia. }
  set (b := p + strspn_sp (drop p buf)) in *.
  destruct (byte_at buf b =? 0)%Z.
  { simpl. repeat split; try done. intros q [= <-]. lia. }
  assert (Hm : strcspn_sp (drop b buf) ≤ n - b).
  { apply strcspn_sp_bound. rewrite lookup_drop.
    by replace (b + (n - b)) with n by lia. }
  set (e := b + strcspn_sp (drop b buf)) in *.
  destruct (Z.eqb_spec (byte_at buf e) 0) as [|Hne].
  { simpl. repeat split; try done. intros q [= <-]. lia. }
  assert (He : e ≠ n).
  { intros ->. apply Hne. unfold byte_at. by rewrite Hnul. }
  simpl. fold buf. repeat split.
  - by rewrite length_insert.
  - by rewrite list_lookup_insert_ne.
  - intros q [= <-]. lia.
  - intros i Hi. destruct (decide (e = i)) as [<-|];
      [apply list_lookup_insert_eq; lia | by rewrite list_lookup_insert_ne].
Qed.

Lemma well_formed_last st :
  well_formed st → line_buf st !! (LINE_BUF_SIZE - 1) = Some 0%Z.
Proof.
  intros ((_ & Hcp & Hz) & _). apply Hz; unfold LINE_BUF_SIZE in *; lia.
Qed.

Lemma get_token_wf (instr : option nat) (st : state) :
  well_formed st →
  (∀ p, instr = Some p → p < LINE_BUF_SIZE) →
  well_formed (snd (get_token instr st)).
Proof.
  intros Hwf Hin. pose proof (well_formed_last st Hwf) as Hnul.
  destruct Hwf as ((Hlen & Hcp & Hz) & Hargs & Hlast).
  set (st0 := set_args (<[0 := 0%Z]> (args st)) st).
  destruct (strtok_bounds instr st0 (LINE_BUF_SIZE - 1))
    as (Hlen' & Hnul' & Hlast' & Hzero & Hcp' & Hargs').
  { exact Hlen. }
  { exact Hnul. }
  { intros p Hp. unfold scan_start in Hp. destruct instr as [p'|].
    - injection Hp as <-. specialize (Hin p' eq_refl). lia.
    - specialize (Hlast p Hp). lia. }
  unfold get_token. fold st0.
  destruct (strtok instr st0) as [[t|] st1] eqn:Hst; simpl in *.
  - assert (Hbase : line_ok st1 ∧
              ∀ p, strtok_last st1 = Some p → p < LINE_BUF_SIZE).
    { split; [split; [done|split]|].
      - by rewrite Hcp'.
      - intros i Hi1 Hi2. apply Hzero, Hz; [by rewrite <- Hcp' | done].
      - intros p Hp. specialize (Hlast' p Hp). unfold LINE_BUF_SIZE. lia. }
    destruct Hbase as [Hline Hptr].
    destruct (Nat.ltb_spec (length (cstr (drop t (line_buf st1))))
                           ARG_BUF_SIZE) as [Hfit|Hlong]; simpl.
    + split; [done|]. split; [|done]. simpl.
      unfold strcpy. rewrite length_app. simpl. rewrite length_drop.
      rewrite Hargs', length_insert, Hargs. lia.
    + split; [done|]. split; [|done]. simpl.
      by rewrite Hargs', length_insert.
  - split; [split; [done|split]|split].
    + by rewrite Hcp'.
    + intros i Hi1 Hi2. apply Hzero, Hz; [by rewrite <- Hcp' | done].
    + by rewrite Hargs', length_insert.
    + intros p Hp. specialize (Hlast' p Hp). unfold LINE_BUF_SIZE. lia.
Qed.

(** X8. [get_token] never leaves the buffers.  For a well-formed state and
    a scan that starts inside the line (as both calls in the sketch do:
    at its start, or at the saved position), the state after the call is
    well formed again: the line buffer keeps its size, its NUL bytes and
    its cursor, [strtok]'s saved position still points into the line, and
    the token buffer keeps its size, i.e. the copy of the token never runs
    past [args], however long the token is.  The call also leaves the
    cursor of the line editor where it was. *)
Theorem get_token_well_formed (instr : option nat) (st : state) :
  well_formed st →
  (∀ p, instr = Some p → p < LINE_BUF_SIZE) →
  well_formed (snd (get_token instr st)) ∧
  length (line_buf (snd (get_token instr st))) = LINE_BUF_SIZE ∧
  length (args (snd (get_token instr st))) = ARG_BUF_SIZE ∧
  cp (snd (get_token instr st)) = cp st.
Proof.
  intros Hwf Hin.
  pose proof (get_token_wf instr st Hwf Hin) as H.
  split; [exact H|]. destruct H as ((Hlen & _) & Hargs & _).
  split; [exact Hlen|]. split; [exact Hargs|].
  unfold get_token, strtok.
  destruct (match instr with Some p => _ | None => _ end) as [p|]; [|done].
  cbn [strtok_last line_buf set_args].
  destruct (_ =? 0)%Z; [done|]. destruct (_ =? 0)%Z; simpl;
    by destruct (_ <? _).
Qed.

Lemma well_formed_boot : well_formed (PinCLI_init boot).
Proof.
  split; [exact line_ok_boot|]. split; [reflexivity|]. intros p Hp.
  discriminate Hp.
Qed.

Lemma read_input_well_formed rx st :
  well_formed st → well_formed (snd (read_input rx st)).
Proof.
  intros (Hline & Hargs & Hlast).
  destruct (read_input_frame_aux rx st) as (Ha & _ & Hl).
  split; [by apply read_input_line_ok_aux|]. by rewrite Ha, Hl.
Qed.

Lemma get_token_well_formed_witness :
  well_formed (snd (get_token (Some 0) (typed (long_word +:+ " 1")))) ∧
  length (line_buf (snd (get_token (Some 0) (typed (long_word +:+ " 1")))))
    = LINE_BUF_SIZE ∧
  length (args (snd (get_token (Some 0) (typed (long_word +:+ " 1")))))
    = ARG_BUF_SIZE ∧
  cp (snd (get_token (Some 0) (typed (long_word +:+ " 1")))) =
    cp (typed (long_word +:+ " 1")).
Proof.
  apply (get_token_well_formed (Some 0) (typed (long_word +:+ " 1"))).
  - apply read_input_well_formed, well_formed_boot.
  - intros p [= <-]. unfold LINE_BUF_SIZE. lia.
Defined.

(** ** The whole sketch stays inside the buffers *)

Lemma well_formed_same st st' :
  line_buf st' = line_buf st → cp st' = cp st → args st' = args st →
  strtok_last st' = strtok_last st →
  well_formed st → well_formed st'.
Proof.
  unfold well_formed, line_ok. intros -> -> -> ->. done.
Qed.

Lemma get_token_resume_wf st :
  well_formed st → well_formed (snd (get_token None st)).
Proof. intros H. by apply get_token_wf. Qed.

Ltac wf_branches :=
  repeat match goal with
         | |- context [if ?b then _ else _] => destruct b
         end;
  try (multimatch goal with
       | H : well_formed ?s |- _ =>
         solve [apply (well_formed_same s); [reflexivity..|exact H]]
       end).

Lemma handlers_well_formed e h st :
  h ∈ commands_func → well_formed st → well_formed (snd (h e st)).
Proof.
  intros Hin Hwf.
  pose proof (get_token_resume_wf st Hwf) as H1.
  pose proof (get_token_resume_wf _ H1) as H2.
  repeat (apply elem_of_cons in Hin as [->|Hin]; [|]);
    [..|by apply elem_of_nil in Hin].
  - unfold cmd_delay. wf_branches.
  - unfold cmd_help. wf_branches.
  - unfold cmd_pmode. wf_branches.
  - unfold cmd_pr. wf_branches.
  - unfold cmd_pw. wf_branches.
  - unfold cmd_spiend. wf_branches.
  - unfold cmd_spirw. wf_branches.
  - unfold cmd_spirw16. wf_branches.
  - unfold cmd_spistart. wf_branches.
Qed.

Lemma execute_from_well_formed e n : ∀ i st,
  well_formed st → well_formed (snd (execute_from n i e st)).
Proof.
  induction n as [|n IH]; intros i st Hwf; simpl.
  - eapply well_formed_same; [..|exact Hwf]; reflexivity.
  - destruct (args_is st (str_at commands_str i)); [|by apply IH].
    destruct (commands_func !! i) as [h|] eqn:Hh; simpl; [|done].
    apply handlers_well_formed; [|done]. by eapply list_elem_of_lookup_2.
Qed.

Lemma execute_well_formed e st :
  well_formed st → well_formed (snd (execute e st)).
Proof.
  intros Hwf. unfold execute.
  destruct (byte_at (args st) 0 =? 0)%Z.
  - eapply well_formed_same; [..|exact Hwf]; reflexivity.
  - by apply execute_from_well_formed.
Qed.

Lemma PinCLI_well_formed e rx st :
  well_formed st → well_formed (snd (PinCLI e rx st)).
Proof.
  intros Hwf. unfold PinCLI.
  pose proof (read_input_well_formed rx st Hwf) as H1.
  destruct (read_input rx st) as [[ret rx'] st1]. simpl in H1.
  destruct (0 <? ret)%Z; simpl.
  2:{ eapply well_formed_same; [..|exact H1]; reflexivity. }
  assert (H2 : well_formed (parse_cmd st1)).
  { apply get_token_wf; [done|].
    intros p [= <-]. unfold LINE_BUF_SIZE. lia. }
  assert (H3 : ∀ p, strtok_last
                      (if negb (error_flag (parse_cmd st1))
                       then snd (execute e (parse_cmd st1))
                       else parse_cmd st1) = Some p → p < LINE_BUF_SIZE).
  { destruct (negb (error_flag (parse_cmd st1)));
      [apply (execute_well_formed e _ H2) | apply H2]. }
  split; [|split]; simpl.
  - split; [reflexivity|].
    split; [change (0 < LINE_BUF_SIZE); unfold LINE_BUF_SIZE; lia|].
    intros i _ Hi. change (memset0 LINE_BUF_SIZE !! i = Some 0%Z).
    by apply lookup_replicate_2.
  - reflexivity.
  - exact H3.
Qed.

(** X9. However many bytes arrive and whatever commands they spell, the
    sketch keeps its state well formed from one turn of [loop] to the
    next: both buffers keep their declared sizes, the cursor stays below
    LINE_BUF_SIZE with only NUL bytes from it on, and [strtok]'s saved
    position stays inside the line buffer; and once a turn has run, the
    error flag is down again. *)
Theorem run_well_formed (n : nat) (e : env) (rx : list Z) (st : state) :
  well_formed st → error_flag st = false →
  well_formed (run n e rx st) ∧ error_flag (run n e rx st) = false.
Proof.
  revert rx st. induction n as [|n IH]; intros rx st Hwf Herr; [done|].
  cbn [run]. destruct rx as [|c rx]; [done|].
  pose proof (PinCLI_well_formed e (c :: rx) st Hwf) as H1.
  assert (H2 : error_flag (snd (PinCLI e (c :: rx) st)) = false).
  { unfold PinCLI. by destruct (read_input (c :: rx) st) as [[? ?] ?]. }
  destruct (PinCLI e (c :: rx) st) as [rx' st']. by apply IH.
Qed.

Lemma run_well_formed_witness :
  well_formed (session world0 (line (long_word +:+ " 1") ++ line "pw 13 1"))
  ∧ error_flag (session world0 (line (long_word +:+ " 1") ++ line "pw 13 1"))
    = false.
Proof.
  apply (run_well_formed _ world0 _ (PinCLI_init boot)).
  - exact well_formed_boot.
  - reflexivity.
Defined.

(** ** Scanning a line a second time *)

Lemma get_token_spec_state instr st p :
  scan_start instr st = Some p →
  ∃ q, strtok_last (snd (get_token instr st)) = Some q ∧
       tokens_from (line_buf (snd (get_token instr st))) q =
         tail (tokens_from (line_buf st) p) ∧
       tokens_from (line_buf (snd (get_token instr st))) p =
         take 1 (tokens_from (line_buf st) p).
Proof.
  intros Hp.
  destruct (get_token_spec instr st p Hp) as (q & buf' & Hq & Hp1 & Hg).
  exists q. rewrite Hg.
  destruct (tokens_from (line_buf st) p) as [|t ts]; [done|].
  by destruct (length t <? ARG_BUF_SIZE).
Qed.

(** X10. Scanning the line from its start a second time forgets the rest
    of the line: the first scan has put a NUL behind the first token, so
    after a second call of [get_token] on the line buffer the next call
    with a null input string finds nothing and leaves by the end-of-line
    exit with an empty token, however many tokens the line had. *)
Theorem get_token_rescan_forgets (st : state) :
  let st2 := snd (get_token (Some 0) (snd (get_token (Some 0) st))) in
  fst (get_token None st2) = EndOfLine ∧
  cstr (args (snd (get_token None st2))) = [] ∧
  pending st2 = [].
Proof.
  intros st2.
  destruct (get_token_spec_state (Some 0) st 0 eq_refl) as (q1 & _ & _ & H1).
  destruct (get_token_spec_state (Some 0) (snd (get_token (Some 0) st)) 0
              eq_refl) as (q2 & Hlast & Hrest & _).
  fold st2 in Hlast, Hrest. rewrite H1 in Hrest.
  assert (Hnil : tokens_from (line_buf st2) q2 = []).
  { rewrite Hrest. by destruct (tokens_from (line_buf st) 0). }
  assert (Hpend : pending st2 = []) by (unfold pending; by rewrite Hlast).
  destruct (get_token_spec None st2 q2 Hlast) as (q3 & buf3 & _ & _ & Hg).
  rewrite Hnil in Hg. rewrite Hg. simpl.
  by rewrite cstr_clear_head.
Qed.

(** ** The turn of the main loop *)

(** X11. Without a carriage return nothing is dispatched: [PinCLI] reads
    all the bytes, edits the line, lowers the error flag and does nothing
    else, whatever the environment; no token is extracted and no handler
    runs. *)
Theorem PinCLI_partial_line (e : env) (rx : list Z) (st : state) :
  CR_CHAR ∉ rx →
  PinCLI e rx st = ([], set_error_flag false (snd (read_input rx st))).
Proof.
  intros Hcr. unfold PinCLI.
  destruct (read_input_chunks rx [] st Hcr) as [H0 _].
  destruct (read_input rx st) as [[ret rx'] st1]. simpl in *.
  by injection H0 as -> ->.
Qed.

Lemma PinCLI_partial_line_witness :
  PinCLI world_pin7_low (bytes_of "pw 13 1") (PinCLI_init boot) =
    ([], set_error_flag false
           (snd (read_input (bytes_of "pw 13 1") (PinCLI_init boot)))).
Proof.
  apply (PinCLI_partial_line world_pin7_low (bytes_of "pw 13 1")
                             (PinCLI_init boot)).
  intros H. vm_compute in H.
  repeat (apply elem_of_cons in H as [H|H]; [discriminate H|]).
  apply elem_of_nil in H. destruct H.
Defined.

Lemma read_input_body_line_only c st st' :
  line_buf st = line_buf st' → cp st = cp st' →
  fst (read_input_body c st) = fst (read_input_body c st') ∧
  line_buf (snd (read_input_body c st)) =
    line_buf (snd (read_input_body c st')) ∧
  cp (snd (read_input_body c st)) = cp (snd (read_input_body c st')).
Proof.
  intros Hb Hc. unfold read_input_body. rewrite Hc.
  destruct (LF_CHAR =? c)%Z; [done|].
  destruct (CR_CHAR =? c)%Z; [done|].
  destruct (BKSP_CHAR =? c)%Z.
  - destruct (0 <? cp st'); [|done]. simpl. by rewrite ?Hb, ?Hc.
  - destruct (cp st' <? LINE_BUF_SIZE - 1); simpl; [|done].
    by rewrite ?Hb, ?Hc.
Qed.

(** What [read_input] does to the line depends on the line only. *)
Lemma read_input_line_only rx : ∀ st st',
  line_buf st = line_buf st' → cp st = cp st' →
  fst (read_input rx st) = fst (read_input rx st') ∧
  line_buf (snd (read_input rx st)) = line_buf (snd (read_input rx st')) ∧
  cp (snd (read_input rx st)) = cp (snd (read_input rx st')).
Proof.
  induction rx as [|c rx IH]; intros st st' Hb Hc; [done|].
  cbn [read_input].
  destruct (read_input_body_line_only c st st' Hb Hc) as (Hr & Hb1 & Hc1).
  destruct (read_input_body c st) as [r1 st1].
  destruct (read_input_body c st') as [r2 st2]. simpl in *. subst r2.
  destruct r1; [done|]. by apply IH.
Qed.

(** X12. A completed line always ends in a clean slate: whatever the
    command was and whether it ran, was unknown, or was refused for a
    too-long name, when [read_input] has reported a line [PinCLI] leaves
    both buffers all zero, the cursor at 0 and the error flag down, the
    last thing sent is the prompt, and the bytes behind the carriage
    return are left unread for the next turn.  The next line is therefore
    edited exactly as the first line after power-up is. *)
Theorem PinCLI_cycle_resets (e : env) (rx : list Z) (st : state) :
  fst (fst (read_input rx st)) = 1%Z →
  (fst (PinCLI e rx st) = snd (fst (read_input rx st)) ∧
   line_buf (snd (PinCLI e rx st)) = replicate LINE_BUF_SIZE 0%Z ∧
   cp (snd (PinCLI e rx st)) = 0 ∧
   args (snd (PinCLI e rx st)) = replicate ARG_BUF_SIZE 0%Z ∧
   error_flag (snd (PinCLI e rx st)) = false ∧
   last (trace (snd (PinCLI e rx st))) = Some (Serial_print CLI_PROMPT)) ∧
  ∀ rx2,
    fst (read_input rx2 (snd (PinCLI e rx st))) =
      fst (read_input rx2 (PinCLI_init boot)) ∧
    line_buf (snd (read_input rx2 (snd (PinCLI e rx st)))) =
      line_buf (snd (read_input rx2 (PinCLI_init boot))) ∧
    cp (snd (read_input rx2 (snd (PinCLI e rx st)))) =
      cp (snd (read_input rx2 (PinCLI_init boot))).
Proof.
  intros Hret.
  assert (H : fst (PinCLI e rx st) = snd (fst (read_input rx st)) ∧
              line_buf (snd (PinCLI e rx st)) = replicate LINE_BUF_SIZE 0%Z ∧
              cp (snd (PinCLI e rx st)) = 0 ∧
              args (snd (PinCLI e rx st)) = replicate ARG_BUF_SIZE 0%Z ∧
              error_flag (snd (PinCLI e rx st)) = false ∧
              last (trace (snd (PinCLI e rx st)))
                = Some (Serial_print CLI_PROMPT)).
  { unfold PinCLI.
    destruct (read_input rx st) as [[ret rx'] st1]. simpl in Hret. subst ret.
    change (0 <? 1)%Z with true. cbv iota. simpl.
    repeat split. by rewrite last_snoc. }
  split; [exact H|]. destruct H as (_ & Hb & Hc & _).
  intros rx2. apply read_input_line_only; [by rewrite Hb | by rewrite Hc].
Qed.

Lemma PinCLI_cycle_resets_witness :
  line_buf (snd (PinCLI world0 (line "bogus" ++ bytes_of "pw")
                        (PinCLI_init boot))) = replicate LINE_BUF_SIZE 0%Z ∧
  line_buf (snd (read_input (bytes_of "pr 7")
                   (snd (PinCLI world0 (line "bogus" ++ bytes_of "pw")
                                (PinCLI_init boot))))) =
    line_buf (snd (read_input (bytes_of "pr 7") (PinCLI_init boot))).
Proof.
  assert (Hret : fst (fst (read_input (line "bogus" ++ bytes_of "pw")
                                      (PinCLI_init boot))) = 1%Z)
    by (vm_compute; reflexivity).
  destruct (PinCLI_cycle_resets world0 (line "bogus" ++ bytes_of "pw")
              (PinCLI_init boot) Hret) as [(_ & Hb & _) Hnext].
  split; [exact Hb|].
  destruct (Hnext (bytes_of "pr 7")) as (_ & Hl & _). exact Hl.
Defined.

(** ** Handlers on the tokens of the line *)

Lemma token_text_fits t : fits t → token_text (Some t) = t.
Proof.
  unfold fits, token_text, too_long, ARG_BUF_SIZE. intros H.
  by replace (length t <? 16) with true by (symmetry; apply Nat.ltb_lt; lia).
Qed.

Lemma token_notice_fits t : fits t → token_notice (Some t) = [].
Proof.
  unfold fits, token_notice, too_long, ARG_BUF_SIZE. intros H.
  by replace (length t <? 16) with true by (symmetry; apply Nat.ltb_lt; lia).
Qed.

Lemma args_empty_decide st :
  (byte_at (args st) 0 =? 0)%Z = bool_decide (cstr (args st) = []).
Proof.
  destruct (args st) as [|c a]; [done|]. unfold byte_at. simpl.
  destruct (Z.eqb_spec c 0); [by rewrite bool_decide_eq_true_2|].
  by rewrite bool_decide_eq_false_2.
Qed.

Lemma help_topic_serial w : forallb is_serial (help_topic w) = true.
Proof. unfold help_topic. repeat case_bool_decide; reflexivity. Qed.

(** X13. [help] answers on the serial line only and by topic: with the
    name of a command as its argument it prints the usage text of that
    command; with no argument, an unknown word or a word that does not fit
    the token buffer it prints the list of commands.  It returns no status
    (the function ends without [return]) and never touches a pin or the
    bus. *)
Theorem cmd_help_effect (e : env) (st : state) :
  fst (cmd_help e st) = None ∧
  trace (snd (cmd_help e st)) =
    trace st ++ token_notice (pending st !! 0)
             ++ help_topic (token_text (pending st !! 0)) ∧
  forallb is_serial (token_notice (pending st !! 0)
                     ++ help_topic (token_text (pending st !! 0))) = true.
Proof.
  split; [reflexivity|]. split.
  - unfold cmd_help.
    destruct (get_token_next st) as (Hc & Ht & _ & _).
    set (st1 := snd (get_token None st)) in *.
    rewrite head_lookup0 in Hc, Ht. cbn [snd].
    change (str_at commands_str 0) with (bytes_of "delay").
    change (str_at commands_str 1) with (bytes_of "help").
    change (str_at commands_str 2) with (bytes_of "pmode").
    change (str_at commands_str 3) with (bytes_of "pr").
    change (str_at commands_str 4) with (bytes_of "pw").
    change (str_at commands_str 5) with (bytes_of "spiend").
    change (str_at commands_str 6) with (bytes_of "spirw").
    change (str_at commands_str 7) with (bytes_of "spirw16").
    change (str_at commands_str 8) with (bytes_of "spistart").
    rewrite args_empty_decide, !args_is_decide by in_tables.
    rewrite Hc. set (w := token_text (pending st !! 0)).
    unfold help_topic.
    case_bool_decide as Hnil.
    { rewrite Hnil. cbn [bool_decide]. simpl.
      unfold help_help, help_events. simpl.
      rewrite Ht, <- !app_assoc. reflexivity. }
    repeat case_bool_decide;
      unfold help_help, help_events; simpl;
      by rewrite Ht, <- !app_assoc.
  - rewrite forallb_app, help_topic_serial.
    unfold token_notice. by destruct (too_long _).
Qed.

(** X14. A missing argument reads as 0 and is not reported.  When the
    line has no token left, [delay] waits 0 ms, [spirw] and [spirw16]
    transfer 0, [pmode] does nothing and [pw] drives pin 0 low; when only
    the value of [pw] is missing, the given pin (the number the pin token
    reads as, as [digitalWrite] receives it: modulo 256) is driven low.
    Nothing is printed about the missing argument and the error flag is
    not raised. *)
Theorem missing_argument_reads_as_zero (e : env) (st : state) :
  pending st = [] →
  (trace (snd (cmd_delay e st)) = trace st ++ [Ev_delay 0] ∧
   trace (snd (cmd_spirw e st)) =
     trace st ++ [SPI_transfer 0;
                  Serial_println_int (wrap8 (SPI_transfer_rx e 0))] ∧
   trace (snd (cmd_spirw16 e st)) =
     trace st ++ [SPI_transfer16 0;
                  Serial_println_int (wrap16 (SPI_transfer16_rx e 0))] ∧
   trace (snd (cmd_pmode e st)) = trace st ∧
   trace (snd (cmd_pw e st)) = trace st ++ [Ev_digitalWrite 0 LOW] ∧
   error_flag (snd (get_token None st)) = error_flag st) ∧
  (∀ st0 pin,
     pending st0 = [pin] → fits pin →
     trace (snd (cmd_pw e st0)) =
       trace st0 ++ [Ev_digitalWrite (to_uint8 (atoi pin)) LOW]).
Proof.
  intros Hp.
  assert (Hn0 : pending st !! 0 = None) by (by rewrite Hp).
  assert (Hn1 : pending st !! 1 = None) by (by rewrite Hp).
  split.
  - destruct (cmd_delay_effect e st) as [_ H1].
    destruct (cmd_spirw_effect e st) as [_ H2].
    destruct (cmd_spirw16_effect e st) as [_ H3].
    destruct (cmd_pmode_effect e st) as [_ H4].
    destruct (cmd_pw_effect e st) as [_ H5].
    destruct (get_token_next st) as (_ & _ & _ & H6).
    rewrite Hn0 in H1, H2, H3, H4, H5. rewrite Hn1 in H4, H5.
    rewrite Hp in H6.
    split; [exact H1|]. split; [exact H2|]. split; [exact H3|].
    split; [by rewrite H4, app_nil_r|]. split; [exact H5|].
    rewrite H6. by destruct (error_flag st).
  - intros st0 pin Hp0 Hfit.
    destruct (cmd_pw_effect e st0) as [_ H].
    rewrite Hp0 in H.
    change ([pin] !! 0) with (Some pin) in H.
    change ([pin] !! 1) with (@None (list Z)) in H.
    by rewrite H, token_text_fits, token_notice_fits.
Qed.

Lemma missing_argument_reads_as_zero_witness :
  trace (snd (cmd_pw world0 (parse_cmd (typed "pw")))) =
    trace (parse_cmd (typed "pw")) ++ [Ev_digitalWrite 0 LOW] ∧
  trace (snd (cmd_pw world0 (parse_cmd (typed "pw 269")))) =
    trace (parse_cmd (typed "pw 269")) ++ [Ev_digitalWrite 13 LOW].
Proof.
  assert (Hp : pending (parse_cmd (typed "pw")) = [])
    by (vm_compute; reflexivity).
  assert (Hp0 : pending (parse_cmd (typed "pw 269")) = [bytes_of "269"])
    by (vm_compute; reflexivity).
  assert (Hfit : fits (bytes_of "269")) by (vm_compute; lia).
  destruct (missing_argument_reads_as_zero world0 (parse_cmd (typed "pw")) Hp)
    as [(_ & _ & _ & _ & Hpw & _) Hval].
  split; [exact Hpw|].
  exact (Hval (parse_cmd (typed "pw 269")) (bytes_of "269") Hp0 Hfit).
Defined.

(** X15. [pw <pin> <value>] with two tokens that fit: a value that reads
    as 0 drives the pin low, a value that reads as 1 drives it high, and
    any other value leaves the pin alone and prints the value-error
    message; the status is 0 in all three cases.  The pin is the number
    the pin token reads as, as [digitalWrite] receives it in its
    [uint8_t] parameter: modulo 256. *)
Theorem cmd_pw_value_rule (e : env) (st : state) (pin val : list Z)
    (ts : list (list Z)) :
  pending st = pin :: val :: ts → fits pin → fits val →
  fst (cmd_pw e st) = Some 0%Z ∧
  (atoi val = 0%Z →
   trace (snd (cmd_pw e st)) =
     trace st ++ [Ev_digitalWrite (to_uint8 (atoi pin)) LOW]) ∧
  (atoi val = 1%Z →
   trace (snd (cmd_pw e st)) =
     trace st ++ [Ev_digitalWrite (to_uint8 (atoi pin)) HIGH]) ∧
  (atoi val ≠ 0%Z → atoi val ≠ 1%Z →
   trace (snd (cmd_pw e st)) =
     trace st ++ [Serial_println "Digital pin write value error"]).
Proof.
  intros Hp Hpin Hval.
  destruct (cmd_pw_effect e st) as [Hr H]. rewrite Hp in H.
  change ((pin :: val :: ts) !! 0) with (Some pin) in H.
  change ((pin :: val :: ts) !! 1) with (Some val) in H.
  rewrite !token_text_fits, !token_notice_fits in H by done.
  cbn [app] in H. unfold pw_events in H.
  split; [done|]. repeat split.
  - intros H0. by rewrite H, H0.
  - intros H1. by rewrite H, H1.
  - intros H0 H1. rewrite H.
    apply Z.eqb_neq in H0. apply Z.eqb_neq in H1. by rewrite H0, H1.
Qed.

Lemma cmd_pw_value_rule_witness :
  trace (snd (cmd_pw world0 (parse_cmd (typed "pw 13 1")))) =
    trace (parse_cmd (typed "pw 13 1")) ++ [Ev_digitalWrite 13 HIGH] ∧
  trace (snd (cmd_pw world0 (parse_cmd (typed "pw 256 1")))) =
    trace (parse_cmd (typed "pw 256 1")) ++ [Ev_digitalWrite 0 HIGH] ∧
  trace (snd (cmd_pw world0 (parse_cmd (typed "pw 13 2")))) =
    trace (parse_cmd (typed "pw 13 2"))
      ++ [Serial_println "Digital pin write value error"].
Proof.
  assert (Hfit : ∀ s, s ∈ ["13"; "256"; "1"; "2"]%string → fits (bytes_of s)).
  { intros s Hs.
    repeat (apply elem_of_cons in Hs as [->|Hs]; [vm_compute; lia|]).
    apply elem_of_nil in Hs. destruct Hs. }
  assert (H1 : pending (parse_cmd (typed "pw 13 1")) =
               [bytes_of "13"; bytes_of "1"]) by (vm_compute; reflexivity).
  assert (H2 : pending (parse_cmd (typed "pw 256 1")) =
               [bytes_of "256"; bytes_of "1"]) by (vm_compute; reflexivity).
  assert (H3 : pending (parse_cmd (typed "pw 13 2")) =
               [bytes_of "13"; bytes_of "2"]) by (vm_compute; reflexivity).
  split; [|split].
  - destruct (cmd_pw_value_rule world0 (parse_cmd (typed "pw 13 1"))
                (bytes_of "13") (bytes_of "1") [] H1)
      as (_ & _ & Hhigh & _); [apply Hfit; in_tables..|].
    apply Hhigh. vm_compute. reflexivity.
  - destruct (cmd_pw_value_rule world0 (parse_cmd (typed "pw 256 1"))
                (bytes_of "256") (bytes_of "1") [] H2)
      as (_ & _ & Hhigh & _); [apply Hfit; in_tables..|].
    apply Hhigh. vm_compute. reflexivity.
  - destruct (cmd_pw_value_rule world0 (parse_cmd (typed "pw 13 2"))
                (bytes_of "13") (bytes_of "2") [] H3)
      as (_ & _ & _ & Herr); [apply Hfit; in_tables..|].
    apply Herr; vm_compute; discriminate.
Defined.

(** X16. [pmode <pin> <mode>] with two tokens that fit: mode [i] makes the
    pin an input, [ip] an input with pull-up, [o] an output; any other
    mode word is ignored in silence: nothing is configured and nothing is
    printed.  The status is 0 in every case.  The pin is the number the
    pin token reads as, as [pinMode] receives it in its [uint8_t]
    parameter: modulo 256. *)
Theorem cmd_pmode_rule (e : env) (st : state) (pin m : list Z)
    (ts : list (list Z)) :
  pending st = pin :: m :: ts → fits pin → fits m →
  fst (cmd_pmode e st) = Some 0%Z ∧
  (m = bytes_of "i" →
   trace (snd (cmd_pmode e st)) =
     trace st ++ [Ev_pinMode (to_uint8 (atoi pin)) INPUT]) ∧
  (m = bytes_of "ip" →
   trace (snd (cmd_pmode e st)) =
     trace st ++ [Ev_pinMode (to_uint8 (atoi pin)) INPUT_PULLUP]) ∧
  (m = bytes_of "o" →
   trace (snd (cmd_pmode e st)) =
     trace st ++ [Ev_pinMode (to_uint8 (atoi pin)) OUTPUT]) ∧
  (m ≠ bytes_of "i" → m ≠ bytes_of "ip" → m ≠ bytes_of "o" →
   trace (snd (cmd_pmode e st)) = trace st).
Proof.
  intros Hp Hpin Hm.
  destruct (cmd_pmode_effect e st) as [Hr H]. rewrite Hp in H.
  change ((pin :: m :: ts) !! 0) with (Some pin) in H.
  change ((pin :: m :: ts) !! 1) with (Some m) in H.
  rewrite !token_text_fits, !token_notice_fits in H by done.
  cbn [app] in H. unfold pmode_events in H.
  split; [done|]. repeat split.
  - intros ->. by rewrite H.
  - intros ->. by rewrite H.
  - intros ->. by rewrite H.
  - intros H1 H2 H3. rewrite H.
    rewrite !bool_decide_eq_false_2 by done. apply app_nil_r.
Qed.

Lemma cmd_pmode_rule_witness :
  trace (snd (cmd_pmode world0 (parse_cmd (typed "pmode 269 o")))) =
    trace (parse_cmd (typed "pmode 269 o")) ++ [Ev_pinMode 13 OUTPUT] ∧
  trace (snd (cmd_pmode world0 (parse_cmd (typed "pmode 13 out")))) =
    trace (parse_cmd (typed "pmode 13 out")).
Proof.
  assert (Hfit : ∀ s, s ∈ ["13"; "269"; "o"; "out"]%string →
                      fits (bytes_of s)).
  { intros s Hs.
    repeat (apply elem_of_cons in Hs as [->|Hs]; [vm_compute; lia|]).
    apply elem_of_nil in Hs. destruct Hs. }
  assert (H1 : pending (parse_cmd (typed "pmode 269 o")) =
               [bytes_of "269"; bytes_of "o"]) by (vm_compute; reflexivity).
  assert (H2 : pending (parse_cmd (typed "pmode 13 out")) =
               [bytes_of "13"; bytes_of "out"]) by (vm_compute; reflexivity).
  split.
  - destruct (cmd_pmode_rule world0 (parse_cmd (typed "pmode 269 o"))
                (bytes_of "269") (bytes_of "o") [] H1)
      as (_ & _ & _ & Hout & _); [apply Hfit; in_tables..|].
    by apply Hout.
  - destruct (cmd_pmode_rule world0 (parse_cmd (typed "pmode 13 out"))
                (bytes_of "13") (bytes_of "out") [] H2)
      as (_ & _ & _ & _ & Hnone); [apply Hfit; in_tables..|].
    apply Hnone; vm_compute; discriminate.
Defined.

(** X17. [spirw] sends one byte: the argument is cut to its low eight
    bits (256 is sent as 0, -1 as 255), the byte read back is printed as a
    number from 0 to 255, and that number is the status returned. *)
Theorem cmd_spirw_byte (e : env) (st : state) (t : list Z)
    (ts : list (list Z)) :
  pending st = t :: ts → fits t →
  let v := (atoi t mod 256)%Z in
  let r := (SPI_transfer_rx e v mod 256)%Z in
  (0 ≤ v < 256)%Z ∧ (0 ≤ r < 256)%Z ∧
  fst (cmd_spirw e st) = Some r ∧
  trace (snd (cmd_spirw e st)) =
    trace st ++ [SPI_transfer v; Serial_println_int r].
Proof.
  intros Hp Hfit v r.
  destruct (cmd_spirw_effect e st) as [Hr H]. rewrite Hp in Hr, H.
  change ((t :: ts) !! 0) with (Some t) in Hr, H.
  rewrite token_text_fits in Hr, H by done.
  rewrite token_notice_fits in H by done.
  split; [apply Z.mod_pos_bound; lia|].
  split; [apply Z.mod_pos_bound; lia|]. split; [exact Hr | exact H].
Qed.

Lemma cmd_spirw_byte_witness :
  trace (snd (cmd_spirw world0 (parse_cmd (typed "spirw 256")))) =
    trace (parse_cmd (typed "spirw 256"))
      ++ [SPI_transfer 0; Serial_println_int 0].
Proof.
  assert (Hp : pending (parse_cmd (typed "spirw 256")) = [bytes_of "256"])
    by (vm_compute; reflexivity).
  assert (Hfit : fits (bytes_of "256")) by (vm_compute; lia).
  destruct (cmd_spirw_byte world0 (parse_cmd (typed "spirw 256"))
              (bytes_of "256") [] Hp Hfit) as (_ & _ & _ & H).
  exact H.
Defined.

(** ** From the keyboard to the pin *)

Lemma tolower_line_bytes l : Forall line_byte l → map tolower l = l.
Proof.
  induction 1 as [|c l (_ & _ & Hup) _ IH]; [done|]. simpl. rewrite IH.
  f_equal. unfold tolower.
  destruct ((65 <=? c)%Z && (c <=? 90)%Z) eqn:H; [|done].
  apply andb_true_iff in H as [H1 H2].
  apply Z.leb_le in H1. apply Z.leb_le in H2. lia.
Qed.

Lemma cstr_nonzero_id l : Forall nonzero l → cstr l = l.
Proof.
  induction 1 as [|c l Hc _ IH]; [done|]. simpl.
  destruct (Z.eqb_spec c 0); [done|]. by rewrite IH.
Qed.

Lemma cstr_padded l : Forall nonzero l → length l < LINE_BUF_SIZE →
  cstr (padded l) = l.
Proof.
  intros Hl Hlen. unfold padded.
  replace (LINE_BUF_SIZE - length l) with (S (LINE_BUF_SIZE - S (length l)))
    by lia.
  cbn [replicate]. rewrite cstr_app_nul. by apply cstr_nonzero_id.
Qed.

Lemma line_byte_const c :
  c ∈ [SP_CHAR; 112%Z; 119%Z] → line_byte c.
Proof.
  intros H. unfold line_byte, nonzero, ordinary.
  repeat (apply elem_of_cons in H as [->|H];
          [unfold SP_CHAR, LF_CHAR, CR_CHAR, BKSP_CHAR; lia|]).
  apply elem_of_nil in H. destruct H.
Qed.

Lemma pw_line_bytes pin val :
  word pin → word val →
  Forall line_byte (pw_line pin val) ∧
  length (pw_line pin val) ≤ LINE_BUF_SIZE - 1 ∧
  tokens (pw_line pin val) = [bytes_of "pw"; pin; val].
Proof.
  intros (Hp0 & Hp1 & Hp2 & Hp3) (Hv0 & Hv1 & Hv2 & Hv3).
  unfold pw_line. split; [|split].
  - change (bytes_of "pw") with [112%Z; 119%Z]. simpl.
    repeat (apply Forall_cons; split; [apply line_byte_const; in_tables|]).
    apply Forall_app; split; [done|].
    apply Forall_cons; split; [apply line_byte_const; in_tables | done].
  - rewrite length_app. simpl. rewrite length_app. simpl.
    unfold fits, ARG_BUF_SIZE, LINE_BUF_SIZE in *. lia.
  - change (bytes_of "pw") with [112%Z; 119%Z].
    rewrite tokens_word
      by (repeat constructor; unfold SP_CHAR; lia).
    destruct pin as [|c pin]; [done|]. rewrite tokens_word by done.
    destruct val as [|d val]; [done|]. by rewrite tokens_last.
Qed.

Lemma execute_pw e st :
  cstr (args st) = bytes_of "pw" → execute e st = cmd_pw e st.
Proof.
  intros Hc. unfold execute. rewrite args_empty_decide, Hc.
  rewrite bool_decide_eq_false_2 by done.
  unfold num_commands. simpl length. cbn [execute_from].
  change (str_at commands_str 0) with (bytes_of "delay").
  change (str_at commands_str 1) with (bytes_of "help").
  change (str_at commands_str 2) with (bytes_of "pmode").
  change (str_at commands_str 3) with (bytes_of "pr").
  change (str_at commands_str 4) with (bytes_of "pw").
  rewrite !args_is_decide by in_tables. rewrite Hc.
  reflexivity.
Qed.

(** X18. From the keyboard to the pin.  At a fresh prompt (empty line,
    error flag down), typing [pw], a pin and a value, each a word of at
    most 15 characters without upper-case letters, and a carriage return
    makes one turn of [PinCLI] echo the line, answer CR LF, act as the
    value rule of [pw] says on the numbers the two words read as (the pin
    as [digitalWrite] receives it: modulo 256), and send the prompt; the
    bytes behind the carriage return stay unread. *)
Theorem pw_line_drives_pin (e : env) (st : state) (pin val rest : list Z) :
  line_buf st = memset0 LINE_BUF_SIZE → cp st = 0 →
  error_flag st = false →
  word pin → word val →
  fst (PinCLI e (pw_line pin val ++ CR_CHAR :: rest) st) = rest ∧
  trace (snd (PinCLI e (pw_line pin val ++ CR_CHAR :: rest) st)) =
    trace st ++ map Serial_write (pw_line pin val)
             ++ [Serial_write CR_CHAR; Serial_write LF_CHAR]
             ++ pw_events (to_uint8 (atoi pin)) (atoi val)
             ++ [Serial_print CLI_PROMPT].
Proof.
  intros Hbuf Hcp Herr Hpin Hval.
  destruct (pw_line_bytes pin val Hpin Hval) as (Hbytes & Hlen & Htoks).
  set (l := pw_line pin val) in *.
  assert (Hord : Forall ordinary l).
  { eapply Forall_impl; [exact Hbytes|]. by intros c (_ & H & _). }
  assert (Hnz : Forall nonzero l).
  { eapply Forall_impl; [exact Hbytes|]. by intros c (H & _). }
  unfold PinCLI.
  destruct (read_input_chunks l (CR_CHAR :: rest) st (ordinary_no_cr l Hord))
    as [_ ->].
  rewrite (read_input_ordinary l [] st Hbuf Hcp Hord) by exact Hlen.
  cbn [snd read_input]. unfold read_input_body.
  change (LF_CHAR =? CR_CHAR)%Z with false.
  change (CR_CHAR =? CR_CHAR)%Z with true. cbv iota.
  change (0 <? 1)%Z with true. cbv iota.
  rewrite (tolower_line_bytes l Hbytes). simpl app.
  set (st2 := emit _ _).
  assert (Hline : tokens_from (line_buf st2) 0 = [bytes_of "pw"; pin; val]).
  { unfold tokens_from. change (drop 0 (line_buf st2)) with (padded l).
    rewrite cstr_padded; [done|done|]. unfold LINE_BUF_SIZE in *. lia. }
  destruct (get_token_spec (Some 0) st2 0 eq_refl)
    as (q & buf' & Hq & _ & Hg).
  rewrite Hline in Hq, Hg. simpl in Hq.
  change (length (bytes_of "pw") <? ARG_BUF_SIZE) with true in Hg.
  unfold parse_cmd. rewrite Hg. cbn [snd].
  set (st3 := token_state _ _ _ _ _ _).
  assert (Hargs : cstr (args st3) = bytes_of "pw").
  { unfold st3, token_state. cbn [args]. by rewrite cstr_strcpy. }
  assert (Hpend : pending st3 = [pin; val]).
  { unfold pending, st3, token_state. cbn [strtok_last line_buf]. exact Hq. }
  change (error_flag st3) with (error_flag st). rewrite Herr. cbn [negb].
  rewrite (execute_pw e st3 Hargs).
  destruct (cmd_pw_effect e st3) as [_ Htr]. rewrite Hpend in Htr.
  change ([pin; val] !! 0) with (Some pin) in Htr.
  change ([pin; val] !! 1) with (Some val) in Htr.
  destruct Hpin as (_ & _ & _ & Hpf). destruct Hval as (_ & _ & _ & Hvf).
  rewrite !token_text_fits, !token_notice_fits in Htr by done.
  split; [reflexivity|].
  cbn [snd trace send_prompt emit set_args set_cp set_line_buf
       set_error_flag].
  rewrite Htr. unfold st3, st2. simpl trace.
  rewrite <- !app_assoc. reflexivity.
Qed.

(** Decimal numbers of at most 15 digits are words. *)
Lemma digits_word w :
  w ≠ [] → Forall (λ c, 48 ≤ c ≤ 57)%Z w → fits w → word w.
Proof.
  intros Hne Hd Hfit. split; [done|]. split; [|split; [|done]].
  - eapply Forall_impl; [exact Hd|]. intros c Hc. cbv beta in Hc.
    unfold line_byte, nonzero, ordinary, LF_CHAR, CR_CHAR, BKSP_CHAR.
    repeat split; lia.
  - eapply Forall_impl; [exact Hd|]. intros c Hc. cbv beta in Hc.
    unfold plain, SP_CHAR. split; lia.
Qed.

Lemma pw_line_drives_pin_witness :
  trace (snd (PinCLI world0 (pw_line (bytes_of "269") (bytes_of "1")
                             ++ CR_CHAR :: []) (PinCLI_init boot))) =
    trace (PinCLI_init boot)
      ++ map Serial_write (pw_line (bytes_of "269") (bytes_of "1"))
      ++ [Serial_write CR_CHAR; Serial_write LF_CHAR]
      ++ [Ev_digitalWrite 13 HIGH]
      ++ [Serial_print CLI_PROMPT].
Proof.
  assert (H269 : word (bytes_of "269")).
  { apply digits_word; [vm_compute; discriminate| |vm_compute; lia].
    vm_compute. repeat constructor; discriminate. }
  assert (H1 : word (bytes_of "1")).
  { apply digits_word; [vm_compute; discriminate| |vm_compute; lia].
    vm_compute. repeat constructor; discriminate. }
  assert (Hb : line_buf (PinCLI_init boot) = memset0 LINE_BUF_SIZE)
    by (vm_compute; reflexivity).
  destruct (pw_line_drives_pin world0 (PinCLI_init boot) (bytes_of "269")
              (bytes_of "1") [] Hb eq_refl eq_refl H269 H1) as [_ H].
  exact H.
Defined.

(** ** What a caller finds in the token buffer *)

Lemma split_on_space_pieces (P : Z → Prop) s :
  Forall P s → Forall (Forall P) (split_on_space s).
Proof.
  induction 1 as [|c s Hc _ IH]; simpl; [by repeat constructor|].
  destruct (c =? SP_CHAR)%Z; [by constructor|].
  destruct (split_on_space s) as [|w ws]; [by repeat constructor|].
  apply Forall_cons in IH as [Hw Hws]. by repeat constructor.
Qed.

Lemma split_on_space_no_space s :
  Forall (Forall (λ c, c ≠ SP_CHAR)) (split_on_space s).
Proof.
  induction s as [|c s IH]; simpl; [by repeat constructor|].
  destruct (Z.eqb_spec c SP_CHAR); [by constructor|].
  destruct (split_on_space s) as [|w ws]; [by repeat constructor|].
  apply Forall_cons in IH as [Hw Hws]. by repeat constructor.
Qed.

Lemma Forall_list_filter {A} (P : A → Prop) f (l : list A) :
  Forall P l → Forall P (List.filter f l).
Proof.
  induction 1 as [|x l Hx _ IH]; simpl; [done|].
  destruct (f x); [by constructor | done].
Qed.

Lemma tokens_shape s :
  Forall (λ t, t ≠ [] ∧ Forall plain t) (tokens (cstr s)).
Proof.
  unfold tokens.
  pose proof (split_on_space_pieces nonzero _ (cstr_nonzero s)) as H1.
  pose proof (split_on_space_no_space (cstr s)) as H2.
  induction (split_on_space (cstr s)) as [|w ws IH]; simpl; [done|].
  apply Forall_cons in H1 as [H1 H1']. apply Forall_cons in H2 as [H2 H2'].
  destruct w as [|c w]; simpl; [by apply IH|].
  constructor; [|by apply IH]. split; [done|].
  apply Forall_forall. intros x Hx. rewrite Forall_forall in H1, H2.
  split; [by apply H1 | by apply H2].
Qed.

(** X19. After any call of [get_token] the token buffer holds a C string
    shorter than ARG_BUF_SIZE without a space in it, and, as the comment
    on the function promises, its first byte tells whether a token was
    found: the string is empty exactly when the call did not leave by the
    copy exit (the line was at its end, or the token was too long). *)
Theorem get_token_result (instr : option nat) (st : state) :
  length (cstr (args (snd (get_token instr st)))) < ARG_BUF_SIZE ∧
  Forall plain (cstr (args (snd (get_token instr st)))) ∧
  (cstr (args (snd (get_token instr st))) = [] ↔
   fst (get_token instr st) ≠ Found).
Proof.
  destruct (scan_start instr st) as [p|] eqn:Hp.
  - destruct (get_token_spec instr st p Hp) as (q & buf' & _ & _ & Hg).
    pose proof (tokens_shape (drop p (line_buf st))) as Hsh.
    fold (tokens_from (line_buf st) p) in Hsh.
    rewrite Hg. destruct (tokens_from (line_buf st) p) as [|t ts] eqn:Ht.
    + simpl. rewrite cstr_clear_head. unfold ARG_BUF_SIZE. simpl.
      split; [lia|]. split; [done|]. done.
    + apply Forall_cons in Hsh as [[Hne Hpl] _].
      destruct (Nat.ltb_spec (length t) ARG_BUF_SIZE) as [Hlt|Hge]; simpl.
      * rewrite cstr_strcpy, (tokens_from_cstr _ _ _ _ Ht).
        split; [done|]. split; [done|]. split; [done|]. by intros H.
      * rewrite cstr_clear_head. unfold ARG_BUF_SIZE. simpl.
        split; [lia|]. split; [done|]. done.
  - unfold scan_start in Hp. destruct instr as [p|]; [done|].
    unfold get_token, strtok. simpl. rewrite Hp. simpl.
    rewrite cstr_clear_head. unfold ARG_BUF_SIZE. simpl.
    split; [lia|]. split; [done|]. done.
Qed.

(** ** Arguments that do not fit the token buffer *)



